(** * lambdaproxy: routing and handler-chain execution

    A shallow embedding of [handler.go] (handlers, routes, the router and
    the chain executor) and of the request/response/context file of the
    package, with the properties of the specification proved over it.

    Go strings are byte strings ([string]); [int] values are [Z]; a Go map
    that may be [nil] is an [option (gmap string string)]; the route
    registry is a [gmap string Route]. The text of a route key is read as
    UTF-8, rune by rune, the way [strings.ToLower] and [strings.TrimSpace]
    read it. *)

From Stdlib Require Import ZArith NArith Ascii String List Lia Bool.
From stdpp Require Import gmap strings pretty.

Local Open Scope Z_scope.

(* ===================================================================== *)
(** ** Values and errors *)
(* ===================================================================== *)

(** The values a handler may hand to [Context.JSON] as [interface{}]:
    the cases the package itself uses (strings) plus the scalar cases and
    one case, a function value, that [encoding/json] refuses. *)
Inductive gvalue : Type :=
| GNil
| GBool (b : bool)
| GInt (z : Z)
| GString (s : string)
| GFunc.

(** [type HTTPError struct { Code int; Message string }] *)
Record HTTPError : Type := mkHTTPError {
  Code : Z;
  Message : string
}.

(** The dynamic types an [error] value can have at the chain boundary:
    a [*HTTPError], or anything else (carrying its [Error()] text). *)
Inductive error : Type :=
| HTTPErr (he : HTTPError)
| OtherErr (msg : string).

Inductive result (A : Type) : Type :=
| Ok (a : A)
| Err (e : error).
Arguments Ok {A} a.
Arguments Err {A} e.

(** [func (he *HTTPError) Error() string] *)
Definition HTTPError_Error (he : HTTPError) : string :=
  "code=" +:+ pretty (Code he) +:+ ", message=" +:+ Message he.

Definition Error (e : error) : string :=
  match e with
  | HTTPErr he => HTTPError_Error he
  | OtherErr msg => msg
  end.

(** [fmt.Errorf(prefix + "%s", err)] *)
Definition Errorf (prefix : string) (e : error) : error :=
  OtherErr (prefix +:+ Error e).

(* ===================================================================== *)
(** ** encoding/json, the part the package calls *)
(* ===================================================================== *)

Module json.

Definition byte (c : ascii) : N := N_of_ascii c.

Definition hexdigit (n : N) : ascii :=
  match n with
  | 0%N => "0" | 1%N => "1" | 2%N => "2" | 3%N => "3"
  | 4%N => "4" | 5%N => "5" | 6%N => "6" | 7%N => "7"
  | 8%N => "8" | 9%N => "9" | 10%N => "a" | 11%N => "b"
  | 12%N => "c" | 13%N => "d" | 14%N => "e" | _ => "f"
  end%char.

Definition between (lo hi : N) (c : ascii) : bool :=
  ((lo <=? byte c) && (byte c <=? hi))%N.

(** Width of the UTF-8 sequence at the head of [l], or [0] when the head
    byte does not start a well-formed sequence (the decoder then yields
    the replacement rune with width 1). *)
Definition runeWidth (l : list ascii) : nat :=
  match l with
  | [] => 0%nat
  | b0 :: t =>
    let n := byte b0 in
    if (n <? 128)%N then 1%nat
    else if between 194 223 b0 then
      match t with
      | b1 :: _ => if between 128 191 b1 then 2%nat else 0%nat
      | _ => 0%nat
      end
    else if between 224 239 b0 then
      let lo := if (n =? 224)%N then 160%N else 128%N in
      let hi := if (n =? 237)%N then 159%N else 191%N in
      match t with
      | b1 :: b2 :: _ =>
        if between lo hi b1 && between 128 191 b2 then 3%nat else 0%nat
      | _ => 0%nat
      end
    else if between 240 244 b0 then
      let lo := if (n =? 240)%N then 144%N else 128%N in
      let hi := if (n =? 244)%N then 143%N else 191%N in
      match t with
      | b1 :: b2 :: b3 :: _ =>
        if between lo hi b1 && between 128 191 b2 && between 128 191 b3
        then 4%nat else 0%nat
      | _ => 0%nat
      end
    else 0%nat
  end.

(** The line and paragraph separators U+2028 and U+2029 (E2 80 A8/A9). *)
Definition lineSep (l : list ascii) : option ascii :=
  match l with
  | b0 :: b1 :: b2 :: _ =>
    if ((byte b0 =? 226) && (byte b1 =? 128))%N then
      if (byte b2 =? 168)%N then Some "8"%char
      else if (byte b2 =? 169)%N then Some "9"%char
      else None
    else None
  | _ => None
  end.

(** One byte below [utf8.RuneSelf], as the encoder writes it with HTML
    escaping on (the setting of [json.Marshal]). *)
Definition escapeByte (c : ascii) : list ascii :=
  let n := byte c in
  if ((n =? 92) || (n =? 34))%N then ["\"%char; c]
  else if (n =? 8)%N then ["\"; "b"]%char
  else if (n =? 12)%N then ["\"; "f"]%char
  else if (n =? 10)%N then ["\"; "n"]%char
  else if (n =? 13)%N then ["\"; "r"]%char
  else if (n =? 9)%N then ["\"; "t"]%char
  else if ((n <? 32) || (n =? 60) || (n =? 62) || (n =? 38))%N then
    ["\"; "u"; "0"; "0"; hexdigit (N.shiftr n 4); hexdigit (N.land n 15)]%char
  else [c].

(** The loop of the string encoder. [skip] is the number of bytes of
    the current rune that are still to be passed over: copied when
    [keep], dropped when the rune was written as an escape. *)
Fixpoint escape (skip : nat) (keep : bool) (l : list ascii) : list ascii :=
  match l with
  | [] => []
  | c :: t =>
    match skip with
    | S k => (if keep then [c] else []) ++ escape k keep t
    | O =>
      if (byte c <? 128)%N then escapeByte c ++ escape 0 true t
      else
        match runeWidth l with
        | O => ["\"; "u"; "f"; "f"; "f"; "d"]%char ++ escape 0 true t
        | S w =>
          match lineSep l with
          | Some d => ["\"; "u"; "2"; "0"; "2"; d]%char ++ escape w false t
          | None => c :: escape w true t
          end
        end
    end
  end.

Definition quote : ascii := ascii_of_N 34.

Definition encodeString (s : string) : string :=
  string_of_list_ascii
    (quote :: escape 0 true (list_ascii_of_string s) ++ [quote]).

(** [json.Marshal(v)] *)
Definition Marshal (v : gvalue) : result string :=
  match v with
  | GNil => Ok "null"%string
  | GBool true => Ok "true"%string
  | GBool false => Ok "false"%string
  | GInt z => Ok (pretty z)
  | GString s => Ok (encodeString s)
  | GFunc => Err (OtherErr "json: unsupported type: func()")
  end.

End json.


(* ===================================================================== *)
(** ** Requests, responses and the execution context *)
(* ===================================================================== *)

(** [net/http] status codes and texts used by the package. *)
Definition StatusNoContent : Z := 204.
Definition StatusNotFound : Z := 404.
Definition StatusInternalServerError : Z := 500.
Definition StatusText_InternalServerError : string := "Internal Server Error".

(** [map[string]string]; [None] is the [nil] map. *)
Definition headers : Type := option (gmap string string).

(** [var EmptyHeaders = map[string]string{}] *)
Definition EmptyHeaders : headers := Some ∅.

Record response : Type := mkresponse {
  StatusCode : Z;
  Headers : headers;
  Body : string
}.

Record Identity : Type := mkIdentity {
  APIKey : string;
  UserArn : string;
  CognitoAuthenticationType : string;
  Caller : string;
  UserAgent : string;
  User : string;
  CognitoIdentityPoolID : string;
  CognitoIdentityID : string;
  CognitoAuthenticationProvider : string;
  SourceIP : string;
  Identity_AccountID : string
}.

Record RequestContext : Type := mkRequestContext {
  ResourceID : string;
  APIID : string;
  ResourcePath : string;
  RequestContext_HTTPMethod : string;
  RequestID : string;
  AccountID : string;
  RequestIdentity : Identity;
  Stage : string
}.

Record Request : Type := mkRequest {
  Request_RequestContext : RequestContext;
  HTTPMethod : string;
  Path : string;
  Resource : string;
  Request_Headers : gmap string string;
  QueryStringParameters : gmap string string;
  PathParameters : gmap string string;
  StageVariables : gmap string string;
  Request_Body : string
}.

(** [type Context struct { Request *Request; response *response }];
    [None] is the [nil] response pointer. *)
Record Context : Type := mkContext {
  Context_Request : Request;
  Context_response : option response
}.

(** Indexing a Go map yields the zero value when the key is absent. *)
Definition index (m : gmap string string) (n : string) : string :=
  default ""%string (m !! n).

Definition QueryParam (ctx : Context) (n : string) : string :=
  index (QueryStringParameters (Context_Request ctx)) n.

Definition Param (ctx : Context) (n : string) : string :=
  index (PathParameters (Context_Request ctx)) n.

Definition StageVar (ctx : Context) (n : string) : string :=
  index (StageVariables (Context_Request ctx)) n.

Definition Header (ctx : Context) (n : string) : string :=
  index (Request_Headers (Context_Request ctx)) n.

(** [func (ctx *Context) status(status int, body interface{}, headers ...)]:
    the context after the call and the error returned. *)
Definition status (ctx : Context) (st : Z) (body : gvalue) (h : headers)
  : Context * option error :=
  match json.Marshal body with
  | Err e =>
    (ctx, Some (Errorf "lambdaproxy: unable to convert body to json: " e))
  | Ok b =>
    (mkContext (Context_Request ctx) (Some (mkresponse st h b)), None)
  end.

Definition NoContent (ctx : Context) (st : Z) : Context * option error :=
  status ctx st (GString "") EmptyHeaders.

Definition String_ (ctx : Context) (st : Z) (body : string)
  : Context * option error :=
  status ctx st (GString body) EmptyHeaders.

Definition JSON (ctx : Context) (st : Z) (body : gvalue)
  : Context * option error :=
  status ctx st body EmptyHeaders.

Definition Continue (ctx : Context) : Context * option error := (ctx, None).

(* ===================================================================== *)
(** ** Binding: body first, then the query string *)
(* ===================================================================== *)

(** A decoder for the texts [json.Unmarshal] is given when the target is a
    [*map[string]string], on the fragment of flat objects whose keys and
    values are plain string literals (printable ASCII, no escapes), and
    [null]. Entries already in the target stay when an object is decoded,
    and a decoded key overwrites; [null] sets the map to [nil], which reads
    as the empty map. Every other text is reported as an error. *)
Module jsondec.

Definition isWS (c : ascii) : bool :=
  let n := json.byte c in ((n =? 32) || (n =? 9) || (n =? 10) || (n =? 13))%N.

Fixpoint skipWS (l : list ascii) : list ascii :=
  match l with
  | c :: t => if isWS c then skipWS t else l
  | [] => []
  end.

(** The literal after its opening quote: its bytes and what follows the
    closing quote. *)
Fixpoint scanString (l : list ascii) : option (list ascii * list ascii) :=
  match l with
  | [] => None
  | c :: t =>
    let n := json.byte c in
    if (n =? 34)%N then Some ([], t)
    else if ((n =? 92) || (n <? 32) || (127 <? n))%N then None
    else match scanString t with
         | Some (s, r) => Some (c :: s, r)
         | None => None
         end
  end.

Definition expect (n : N) (l : list ascii) : option (list ascii) :=
  match l with
  | c :: t => if (json.byte c =? n)%N then Some t else None
  | [] => None
  end.

(** [l] stands at the opening quote of a member's key. *)
Fixpoint members (fuel : nat) (l : list ascii) (m : gmap string string)
  : option (gmap string string) :=
  match fuel with
  | O => None
  | S f =>
    r0 ← expect 34 l;
    '(k, r1) ← scanString r0;
    r2 ← expect 58 (skipWS r1);
    r3 ← expect 34 (skipWS r2);
    '(v, r4) ← scanString r3;
    let m' := <[string_of_list_ascii k := string_of_list_ascii v]> m in
    match skipWS r4 with
    | d :: r5 =>
      if (json.byte d =? 44)%N then members f (skipWS r5) m'
      else if (json.byte d =? 125)%N then
        match skipWS r5 with [] => Some m' | _ => None end
      else None
    | [] => None
    end
  end.

Definition document (l : list ascii) (m : gmap string string)
  : option (gmap string string) :=
  let l0 := skipWS l in
  match expect 123 l0 with
  | Some r =>
    match expect 125 (skipWS r) with
    | Some r' => match skipWS r' with [] => Some m | _ => None end
    | None => members (length l) (skipWS r) m
    end
  | None =>
    match l0 with
    | c0 :: c1 :: c2 :: c3 :: r =>
      if decide (string_of_list_ascii [c0; c1; c2; c3] = "null"%string)
      then match skipWS r with [] => Some ∅ | _ => None end
      else None
    | _ => None
    end
  end.

Definition Unmarshal (data : string) (m : gmap string string)
  : result (gmap string string) :=
  match document (list_ascii_of_string data) m with
  | Some m' => Ok m'
  | None => Err (OtherErr "json: cannot unmarshal")
  end.

End jsondec.

(** [mergo.Map(dst, src)] where both are string maps: the two have the same
    kind, so the call is a plain merge without overwrite. A key of [src]
    is stored in [dst] when [dst] has no such key or holds the empty value
    for it; a key that [dst] already fills is left alone. *)
Module mergo.

Definition isEmptyValue (s : string) : bool :=
  if decide (s = ""%string) then true else false.

Definition Map (dst src : gmap string string) : result (gmap string string) :=
  Ok (union_with (λ d s, Some (if isEmptyValue d then s else d)) dst src).

End mergo.

Section Bind.

(** [json.Unmarshal([]byte(data), m)]: the target after decoding, or the
    decoder's error. *)
Variable Unmarshal : string → gmap string string → result (gmap string string).

(** [func (ctx *Context) Bind(m interface{}) error], for a target [m] that
    points to a [map[string]string]: the target after the call, or the
    error returned. *)
Definition Bind (ctx : Context) (m : gmap string string)
  : result (gmap string string) :=
  match Unmarshal (Request_Body (Context_Request ctx)) m with
  | Err e => Err (Errorf "lambdaproxy: unable to bind body to struct: " e)
  | Ok m1 =>
    match mergo.Map m1 (QueryStringParameters (Context_Request ctx)) with
    | Err e =>
      Err (Errorf "lambdaproxy: unable to bind query params to struct: " e)
    | Ok m2 => Ok m2
    end
  end.

End Bind.


(* ===================================================================== *)
(** ** Handlers *)
(* ===================================================================== *)

(** What a [log.Printf] call is given after its format string. *)
Inductive logArg : Type :=
| ArgError (e : error)          (* an error, printed through [Error()] *)
| ArgText (s : string)
| ArgContextJSON (r : Request). (* [json.Marshal] of a [*Context]: its
                                   exported field, the request *)

Record logRecord : Type := Printf {
  format : string;
  arg : logArg
}.

(** A handler is code of another package that receives the [*Context]. It
    can read and replace the exported [Request], call the exported methods
    that set the response, write to the process log, and return. The
    [response] field and the [response] type are unexported: the methods
    are the only way a handler reaches them. *)
Inductive HandlerFunc : Type :=
| Return (err : option error)
| GetRequest (k : Request → HandlerFunc)
| SetRequest (r : Request) (k : HandlerFunc)
| CallNoContent (st : Z) (k : option error → HandlerFunc)
| CallString (st : Z) (body : string) (k : option error → HandlerFunc)
| CallJSON (st : Z) (body : gvalue) (k : option error → HandlerFunc)
| CallContinue (k : option error → HandlerFunc)
| CallPrintf (r : logRecord) (k : HandlerFunc).

(** The state one invocation runs in: the shared context and the process
    log (oldest first), with two records kept for the proofs: how many
    times the executor has called a handler, and the responses the
    response-setting methods have stored on the context, in order. *)
Record World : Type := mkWorld {
  ctx : Context;
  log : list logRecord;
  calls : nat;
  written : list response
}.

Definition setCtx (w : World) (c : Context) : World :=
  mkWorld c (log w) (calls w) (written w).

Definition addLog (w : World) (r : logRecord) : World :=
  mkWorld (ctx w) (log w ++ [r]) (calls w) (written w).

Definition called (w : World) : World :=
  mkWorld (ctx w) (log w) (S (calls w)) (written w).

(** The world after a response-setting method returned [(c, e)]: the
    method stored a response exactly when it returned no error. *)
Definition stored (w : World) (x : Context * option error) : World :=
  match snd x, Context_response (fst x) with
  | None, Some r => mkWorld (fst x) (log w) (calls w) (written w ++ [r])
  | _, _ => setCtx w (fst x)
  end.

(** The body of a handler run against the shared context. *)
Fixpoint run (h : HandlerFunc) (w : World) : option error * World :=
  match h with
  | Return err => (err, w)
  | GetRequest k => run (k (Context_Request (ctx w))) w
  | SetRequest r k =>
    run k (setCtx w (mkContext r (Context_response (ctx w))))
  | CallNoContent st k =>
    let x := NoContent (ctx w) st in run (k (snd x)) (stored w x)
  | CallString st body k =>
    let x := String_ (ctx w) st body in run (k (snd x)) (stored w x)
  | CallJSON st body k =>
    let x := JSON (ctx w) st body in run (k (snd x)) (stored w x)
  | CallContinue k =>
    let x := Continue (ctx w) in run (k (snd x)) (setCtx w (fst x))
  | CallPrintf r k => run k (addLog w r)
  end.

(** [func (h HandlerFunc) Handle(ctx *Context) error] *)
Definition Handle (h : HandlerFunc) (w : World) : option error * World :=
  run h (called w).

(* ===================================================================== *)
(** ** The chain executor *)
(* ===================================================================== *)

Definition internalError : response :=
  mkresponse StatusInternalServerError EmptyHeaders
             StatusText_InternalServerError.

(** [func execHandlerFuncs(resp *response, hctx *Context, h ...HandlerFunc)].
    The error result of the Go function is [nil] on every path and is left
    out; the world after the call is returned with the response. *)
Fixpoint execHandlerFuncs (resp : response) (w : World) (h : list HandlerFunc)
  : response * World :=
  match h with
  | [] => (resp, w)
  | hf :: rest =>
    let '(err, w1) := Handle hf w in
    match err with
    | Some (HTTPErr he) =>
      (mkresponse (Code he) EmptyHeaders (Message he), w1)
    | Some e =>
      (internalError,
       addLog w1 (Printf
         "[ERROR] lambdaProxy.Handle: error processing function handler: %s"
         (ArgError e)))
    | None =>
      let resp' := match Context_response (ctx w1) with
                   | Some r => r
                   | None => resp
                   end in
      execHandlerFuncs resp' w1 rest
    end
  end.

(** [func notFoundHandler(c *Context) error]. [json.Marshal] of a context
    made of strings and string maps has no failing case, so the error
    return under it is not reached. *)
Definition notFoundHandler : HandlerFunc :=
  GetRequest (λ r,
    CallPrintf (Printf "[DEBUG] Context: \n%s" (ArgContextJSON r))
      (CallNoContent StatusNotFound Return)).

(* ===================================================================== *)
(** ** UTF-8 text: [unicode/utf8], [unicode] and [strings] *)
(* ===================================================================== *)

Module utf8.

Definition RuneError : Z := 65533.
Definition MaxRune : Z := 1114111.
Definition RuneSelf : Z := 128.

Definition code (c : ascii) : Z := Z.of_N (N_of_ascii c).
Definition byteOf (z : Z) : ascii := ascii_of_N (Z.to_N z).

(** The byte lies between [lo] and [hi]. *)
Definition within (lo hi : Z) (c : ascii) : bool :=
  (lo <=? code c) && (code c <=? hi).

(** A continuation byte, [0x80] to [0xBF]. *)
Definition cont (c : ascii) : bool := within 128 191 c.

(** The range accepted for the second byte after the first byte [c0]
    (the table [acceptRanges]): it excludes over-long forms, surrogates
    and runes above [MaxRune]. *)
Definition accept (c0 c1 : ascii) : bool :=
  within (if code c0 =? 224 then 160 else if code c0 =? 240 then 144 else 128)
         (if code c0 =? 237 then 159 else if code c0 =? 244 then 143 else 191)
         c1.

Definition rune2 (c0 c1 : ascii) : Z :=
  Z.lor (Z.shiftl (Z.land (code c0) 31) 6) (Z.land (code c1) 63).

Definition rune3 (c0 c1 c2 : ascii) : Z :=
  Z.lor (Z.lor (Z.shiftl (Z.land (code c0) 15) 12)
               (Z.shiftl (Z.land (code c1) 63) 6))
        (Z.land (code c2) 63).

Definition rune4 (c0 c1 c2 c3 : ascii) : Z :=
  Z.lor (Z.lor (Z.lor (Z.shiftl (Z.land (code c0) 7) 18)
                      (Z.shiftl (Z.land (code c1) 63) 12))
               (Z.shiftl (Z.land (code c2) 63) 6))
        (Z.land (code c3) 63).

(** [func DecodeRuneInString(s string) (rune, int)]: the first rune of
    [s], here with the bytes that encode it and the rest of the string
    in place of the width. A byte that starts no valid encoding is
    [RuneError] of width one; the empty string has no rune. *)
Definition DecodeRuneInString (s : string) : option (Z * string * string) :=
  match s with
  | EmptyString => None
  | String c0 s1 =>
    let invalid := Some (RuneError, String c0 EmptyString, s1) in
    if code c0 <? RuneSelf then Some (code c0, String c0 EmptyString, s1)
    else if within 194 223 c0 then
      match s1 with
      | String c1 s2 =>
        if cont c1
        then Some (rune2 c0 c1, String c0 (String c1 EmptyString), s2)
        else invalid
      | _ => invalid
      end
    else if within 224 239 c0 then
      match s1 with
      | String c1 (String c2 s3) =>
        if accept c0 c1 && cont c2
        then Some (rune3 c0 c1 c2,
                   String c0 (String c1 (String c2 EmptyString)), s3)
        else invalid
      | _ => invalid
      end
    else if within 240 244 c0 then
      match s1 with
      | String c1 (String c2 (String c3 s4)) =>
        if accept c0 c1 && cont c2 && cont c3
        then Some (rune4 c0 c1 c2 c3,
                   String c0 (String c1 (String c2 (String c3 EmptyString))),
                   s4)
        else invalid
      | _ => invalid
      end
    else invalid
  end.

(** The runes that [for _, c := range s] yields, each with its bytes.
    Every step consumes a byte at least, so the length of the string is
    fuel enough. *)
Fixpoint decode (fuel : nat) (s : string) : list (Z * string) :=
  match fuel with
  | O => []
  | S fuel' =>
    match DecodeRuneInString s with
    | None => []
    | Some (r, b, rest) => (r, b) :: decode fuel' rest
    end
  end.

Definition runes (s : string) : list (Z * string) :=
  decode (String.length s) s.

(** The bytes of a list of runes. *)
Definition join (l : list (Z * string)) : string :=
  foldr (λ ch acc, ch.2 +:+ acc) EmptyString l.

(** [func EncodeRune(p []byte, r rune) int], as the bytes written. *)
Definition EncodeRune (r : Z) : string :=
  let three (r : Z) :=
    String (byteOf (Z.lor 224 (Z.shiftr r 12)))
      (String (byteOf (Z.lor 128 (Z.land (Z.shiftr r 6) 63)))
        (String (byteOf (Z.lor 128 (Z.land r 63))) EmptyString)) in
  if (0 <=? r) && (r <=? 127) then String (byteOf r) EmptyString
  else if (0 <=? r) && (r <=? 2047) then
    String (byteOf (Z.lor 192 (Z.shiftr r 6)))
      (String (byteOf (Z.lor 128 (Z.land r 63))) EmptyString)
  else if (r <? 0) || (MaxRune <? r) || ((55296 <=? r) && (r <=? 57343))
  then three RuneError
  else if r <=? 65535 then three r
  else
    String (byteOf (Z.lor 240 (Z.shiftr r 18)))
      (String (byteOf (Z.lor 128 (Z.land (Z.shiftr r 12) 63)))
        (String (byteOf (Z.lor 128 (Z.land (Z.shiftr r 6) 63)))
          (String (byteOf (Z.lor 128 (Z.land r 63))) EmptyString))).

End utf8.

Module unicode.

(** [func IsSpace(r rune) bool]: the white space of Latin-1, then the
    table [White_Space]. *)
Definition IsSpace (r : Z) : bool :=
  if (0 <=? r) && (r <=? 255) then
    ((9 <=? r) && (r <=? 13)) || (r =? 32) || (r =? 133) || (r =? 160)
  else
    (r =? 5760) || ((8192 <=? r) && (r <=? 8202)) || (r =? 8232)
    || (r =? 8233) || (r =? 8239) || (r =? 8287) || (r =? 12288).

(** [type CaseRange struct { Lo, Hi uint32; Delta d }], with the
    lower-case column of [Delta] alone. *)
Record CaseRange : Type := mkCaseRange { Lo : Z; Hi : Z; Delta : Z }.

(** The mark of a range of alternating upper- and lower-case letters. *)
Definition UpperLower : Z := utf8.MaxRune + 1.

(** The ranges of [unicode.CaseRanges] in which a letter has a lower-case
    form other than itself (the tables of Unicode 15.0.0), each with the
    lower-case column of its [Delta]; neighbouring ranges of one [Delta]
    are written as one. *)
Definition CaseRanges : list CaseRange :=
  [ mkCaseRange 192 214 32; mkCaseRange 216 222 32;
    mkCaseRange 256 303 UpperLower; mkCaseRange 304 304 (-199);
    mkCaseRange 306 311 UpperLower; mkCaseRange 313 328 UpperLower;
    mkCaseRange 330 375 UpperLower; mkCaseRange 376 376 (-121);
    mkCaseRange 377 382 UpperLower; mkCaseRange 385 385 210;
    mkCaseRange 386 389 UpperLower; mkCaseRange 390 390 206;
    mkCaseRange 391 391 1; mkCaseRange 393 394 205; mkCaseRange 395 395 1;
    mkCaseRange 398 398 79; mkCaseRange 399 399 202; mkCaseRange 400 400 203;
    mkCaseRange 401 401 1; mkCaseRange 403 403 205; mkCaseRange 404 404 207;
    mkCaseRange 406 406 211; mkCaseRange 407 407 209; mkCaseRange 408 408 1;
    mkCaseRange 412 412 211; mkCaseRange 413 413 213;
    mkCaseRange 415 415 214; mkCaseRange 416 421 UpperLower;
    mkCaseRange 422 422 218; mkCaseRange 423 423 1; mkCaseRange 425 425 218;
    mkCaseRange 428 428 1; mkCaseRange 430 430 218; mkCaseRange 431 431 1;
    mkCaseRange 433 434 217; mkCaseRange 435 438 UpperLower;
    mkCaseRange 439 439 219; mkCaseRange 440 440 1; mkCaseRange 444 444 1;
    mkCaseRange 452 452 2; mkCaseRange 453 453 1; mkCaseRange 455 455 2;
    mkCaseRange 456 456 1; mkCaseRange 458 458 2;
    mkCaseRange 459 476 UpperLower; mkCaseRange 478 495 UpperLower;
    mkCaseRange 497 497 2; mkCaseRange 498 501 UpperLower;
    mkCaseRange 502 502 (-97); mkCaseRange 503 503 (-56);
    mkCaseRange 504 543 UpperLower; mkCaseRange 544 544 (-130);
    mkCaseRange 546 563 UpperLower; mkCaseRange 570 570 10795;
    mkCaseRange 571 571 1; mkCaseRange 573 573 (-163);
    mkCaseRange 574 574 10792; mkCaseRange 577 577 1;
    mkCaseRange 579 579 (-195); mkCaseRange 580 580 69;
    mkCaseRange 581 581 71; mkCaseRange 582 591 UpperLower;
    mkCaseRange 880 883 UpperLower; mkCaseRange 886 886 1;
    mkCaseRange 895 895 116; mkCaseRange 902 902 38; mkCaseRange 904 906 37;
    mkCaseRange 908 908 64; mkCaseRange 910 911 63; mkCaseRange 913 929 32;
    mkCaseRange 931 939 32; mkCaseRange 975 975 8;
    mkCaseRange 984 1007 UpperLower; mkCaseRange 1012 1012 (-60);
    mkCaseRange 1015 1015 1; mkCaseRange 1017 1017 (-7);
    mkCaseRange 1018 1018 1; mkCaseRange 1021 1023 (-130);
    mkCaseRange 1024 1039 80; mkCaseRange 1040 1071 32;
    mkCaseRange 1120 1153 UpperLower; mkCaseRange 1162 1215 UpperLower;
    mkCaseRange 1216 1216 15; mkCaseRange 1217 1230 UpperLower;
    mkCaseRange 1232 1327 UpperLower; mkCaseRange 1329 1366 48;
    mkCaseRange 4256 4293 7264; mkCaseRange 4295 4295 7264;
    mkCaseRange 4301 4301 7264; mkCaseRange 5024 5103 38864;
    mkCaseRange 5104 5109 8; mkCaseRange 7312 7354 (-3008);
    mkCaseRange 7357 7359 (-3008); mkCaseRange 7680 7829 UpperLower;
    mkCaseRange 7838 7838 (-7615); mkCaseRange 7840 7935 UpperLower;
    mkCaseRange 7944 7951 (-8); mkCaseRange 7960 7965 (-8);
    mkCaseRange 7976 7983 (-8); mkCaseRange 7992 7999 (-8);
    mkCaseRange 8008 8013 (-8); mkCaseRange 8025 8025 (-8);
    mkCaseRange 8027 8027 (-8); mkCaseRange 8029 8029 (-8);
    mkCaseRange 8031 8031 (-8); mkCaseRange 8040 8047 (-8);
    mkCaseRange 8072 8079 (-8); mkCaseRange 8088 8095 (-8);
    mkCaseRange 8104 8111 (-8); mkCaseRange 8120 8121 (-8);
    mkCaseRange 8122 8123 (-74); mkCaseRange 8124 8124 (-9);
    mkCaseRange 8136 8139 (-86); mkCaseRange 8140 8140 (-9);
    mkCaseRange 8152 8153 (-8); mkCaseRange 8154 8155 (-100);
    mkCaseRange 8168 8169 (-8); mkCaseRange 8170 8171 (-112);
    mkCaseRange 8172 8172 (-7); mkCaseRange 8184 8185 (-128);
    mkCaseRange 8186 8187 (-126); mkCaseRange 8188 8188 (-9);
    mkCaseRange 8486 8486 (-7517); mkCaseRange 8490 8490 (-8383);
    mkCaseRange 8491 8491 (-8262); mkCaseRange 8498 8498 28;
    mkCaseRange 8544 8559 16; mkCaseRange 8579 8579 1;
    mkCaseRange 9398 9423 26; mkCaseRange 11264 11311 48;
    mkCaseRange 11360 11360 1; mkCaseRange 11362 11362 (-10743);
    mkCaseRange 11363 11363 (-3814); mkCaseRange 11364 11364 (-10727);
    mkCaseRange 11367 11372 UpperLower; mkCaseRange 11373 11373 (-10780);
    mkCaseRange 11374 11374 (-10749); mkCaseRange 11375 11375 (-10783);
    mkCaseRange 11376 11376 (-10782); mkCaseRange 11378 11378 1;
    mkCaseRange 11381 11381 1; mkCaseRange 11390 11391 (-10815);
    mkCaseRange 11392 11491 UpperLower; mkCaseRange 11499 11502 UpperLower;
    mkCaseRange 11506 11506 1; mkCaseRange 42560 42605 UpperLower;
    mkCaseRange 42624 42651 UpperLower; mkCaseRange 42786 42799 UpperLower;
    mkCaseRange 42802 42863 UpperLower; mkCaseRange 42873 42876 UpperLower;
    mkCaseRange 42877 42877 (-35332); mkCaseRange 42878 42887 UpperLower;
    mkCaseRange 42891 42891 1; mkCaseRange 42893 42893 (-42280);
    mkCaseRange 42896 42899 UpperLower; mkCaseRange 42902 42921 UpperLower;
    mkCaseRange 42922 42922 (-42308); mkCaseRange 42923 42923 (-42319);
    mkCaseRange 42924 42924 (-42315); mkCaseRange 42925 42925 (-42305);
    mkCaseRange 42926 42926 (-42308); mkCaseRange 42928 42928 (-42258);
    mkCaseRange 42929 42929 (-42282); mkCaseRange 42930 42930 (-42261);
    mkCaseRange 42931 42931 928; mkCaseRange 42932 42947 UpperLower;
    mkCaseRange 42948 42948 (-48); mkCaseRange 42949 42949 (-42307);
    mkCaseRange 42950 42950 (-35384); mkCaseRange 42951 42954 UpperLower;
    mkCaseRange 42960 42960 1; mkCaseRange 42966 42969 UpperLower;
    mkCaseRange 42997 42997 1; mkCaseRange 65313 65338 32;
    mkCaseRange 66560 66599 40; mkCaseRange 66736 66771 40;
    mkCaseRange 66928 66938 39; mkCaseRange 66940 66954 39;
    mkCaseRange 66956 66962 39; mkCaseRange 66964 66965 39;
    mkCaseRange 68736 68786 64; mkCaseRange 71840 71871 32;
    mkCaseRange 93760 93791 32; mkCaseRange 125184 125217 34 ].

(** [func to(_case int, r rune, caseRange []CaseRange)] for
    [_case = LowerCase]; the source searches the sorted ranges by
    bisection. *)
Fixpoint to (caseRange : list CaseRange) (r : Z) : Z :=
  match caseRange with
  | [] => r
  | cr :: rest =>
    if (Lo cr <=? r) && (r <=? Hi cr) then
      if utf8.MaxRune <? Delta cr
      then Lo cr + Z.lor (Z.ldiff (r - Lo cr) 1) 1
      else r + Delta cr
    else to rest r
  end.

(** [func ToLower(r rune) rune] *)
Definition ToLower (r : Z) : Z :=
  if r <=? 127 then
    if (65 <=? r) && (r <=? 90) then r + 32 else r
  else to CaseRanges r.

End unicode.

(** [func Map(mapping func(rune) rune, s string) string]: every rune is
    replaced by the encoding of its image, and dropped where the image
    is negative; a byte that is no valid UTF-8 counts as [RuneError] and
    is written as the three bytes of U+FFFD. [mapRunes] is the loop over
    the runes. *)
Definition mapRunes (mapping : Z → Z) (l : list (Z * string)) : string :=
  foldr (λ ch acc,
          if 0 <=? mapping ch.1 then utf8.EncodeRune (mapping ch.1) +:+ acc
          else acc)
        EmptyString l.

Definition strings_Map (mapping : Z → Z) (s : string) : string :=
  mapRunes mapping (utf8.runes s).

(** [func ToLower(s string) string] of package [strings]:
    [Map(unicode.ToLower, s)]. The source has a shorter path for ASCII
    text, [lowerASCII] below, which computes the same string
    ([ToLower_ascii]). *)
Definition ToLower (s : string) : string := strings_Map unicode.ToLower s.

(** [func TrimLeftFunc(s string, f func(rune) bool) string], on the
    runes of the string. *)
Fixpoint trimLeftFunc (f : Z → bool) (l : list (Z * string))
  : list (Z * string) :=
  match l with
  | [] => []
  | ch :: l' => if f ch.1 then trimLeftFunc f l' else l
  end.

(** [func TrimRightFunc(s string, f func(rune) bool) string], on the
    runes of the string. *)
Fixpoint trimRightFunc (f : Z → bool) (l : list (Z * string))
  : list (Z * string) :=
  match l with
  | [] => []
  | ch :: l' =>
    match trimRightFunc f l' with
    | [] => if f ch.1 then [] else [ch]
    | t => ch :: t
    end
  end.

(** [func TrimSpace(s string) string]: the string without the white
    space runes at its two ends, [TrimFunc(s, unicode.IsSpace)]. The source
    finds the runes at the right end decoding backwards, which meets the
    runes of the decoding from the left; its shorter path for ASCII text,
    [trimASCII] below, computes the same string ([TrimSpace_ascii]). *)
Definition TrimSpace (s : string) : string :=
  utf8.join (trimRightFunc unicode.IsSpace
               (trimLeftFunc unicode.IsSpace (utf8.runes s))).

(** White space, upper case and lower case among the bytes of ASCII. *)
Definition isSpace (c : ascii) : bool :=
  let n := N_of_ascii c in ((9 <=? n) && (n <=? 13) || (n =? 32))%N.

Definition isUpper (c : ascii) : bool :=
  let n := N_of_ascii c in ((65 <=? n) && (n <=? 90))%N.

Definition toLower (c : ascii) : ascii :=
  if isUpper c then ascii_of_N (N_of_ascii c + 32) else c.

(** What [strings.ToLower] computes for ASCII text, byte by byte. *)
Fixpoint lowerASCII (s : string) : string :=
  match s with
  | EmptyString => EmptyString
  | String c s' => String (toLower c) (lowerASCII s')
  end.

Fixpoint trimLeft (s : string) : string :=
  match s with
  | EmptyString => EmptyString
  | String c s' => if isSpace c then trimLeft s' else s
  end.

Fixpoint trimRight (s : string) : string :=
  match s with
  | EmptyString => EmptyString
  | String c s' =>
    match trimRight s' with
    | EmptyString => if isSpace c then EmptyString else String c EmptyString
    | t => String c t
    end
  end.

(** What [strings.TrimSpace] computes for ASCII text, byte by byte. *)
Definition trimASCII (s : string) : string := trimRight (trimLeft s).

(* ===================================================================== *)
(** ** Routes and the router *)
(* ===================================================================== *)

Record Route : Type := mkRoute {
  Route_HTTPMethod : string;
  Route_ResourcePath : string;
  HandlerFuncs : list HandlerFunc
}.

(** [func routeKey(method, path string) string] *)
Definition routeKey (method path : string) : string :=
  ToLower (TrimSpace method +:+ ":" +:+ TrimSpace path).

Record router : Type := mkrouter {
  routes : gmap string Route;
  router_notFoundHandler : HandlerFunc
}.

(** [func NewRouter() *router] *)
Definition NewRouter : router := mkrouter ∅ notFoundHandler.

(** [func (r *router) Add(method, resourcePath string, h ...HandlerFunc)] *)
Definition Add (r : router) (method resourcePath : string)
  (h : list HandlerFunc) : router :=
  mkrouter (<[routeKey method resourcePath := mkRoute method resourcePath h]>
              (routes r))
           (router_notFoundHandler r).

Definition GET (r : router) (p : string) h := Add r "get" p h.
Definition PUT (r : router) (p : string) h := Add r "put" p h.
Definition POST (r : router) (p : string) h := Add r "post" p h.
Definition DELETE (r : router) (p : string) h := Add r "delete" p h.
Definition HEAD (r : router) (p : string) h := Add r "head" p h.

(** [func (r *router) SetNotFoundHandler(h HandlerFunc) *router] *)
Definition SetNotFoundHandler (r : router) (h : HandlerFunc) : router :=
  mkrouter (routes r) h.

(** The event as [json.Unmarshal(event, req)] leaves it: a decoding error
    with its text, or the request. *)
Inductive event : Type :=
| Malformed (err : string)
| Parsed (req : Request).

Definition defaultResponse : response :=
  mkresponse StatusNoContent EmptyHeaders "".

(** The world a fresh [&Context{Request: req}] starts in. *)
Definition freshWorld (req : Request) (l : list logRecord) : World :=
  mkWorld (mkContext req None) l 0 [].

(** What the event source observes of one invocation: the response handed
    back, the process log after it, and the number of handler calls made. *)
Definition outcome : Type := response * list logRecord * nat.

Definition observe (x : response * World) : outcome :=
  (fst x, log (snd x), calls (snd x)).

Definition unmarshalFailure (site err : string) (l : list logRecord)
  : outcome :=
  (internalError,
   l ++ [Printf ("[ERROR] " +:+ site +:+
                 ": unable to unmarshal lambda event json: %s")
                (ArgText err)],
   0%nat).

(** The function [Handle(h...)] registers with the event source, applied
    to one event; [l] is the process log before the call. *)
Definition HandleEvent (h : list HandlerFunc) (ev : event)
  (l : list logRecord) : outcome :=
  match ev with
  | Malformed err => unmarshalFailure "lambdaProxy.Handle" err l
  | Parsed req => observe (execHandlerFuncs defaultResponse (freshWorld req l) h)
  end.

(** The chain [Serve] selects for a request: the route's handlers, or the
    not-found handler alone when there is no route or it has no handler. *)
Definition selected (r : router) (req : Request) : list HandlerFunc :=
  match routes r !! routeKey (HTTPMethod req) (Resource req) with
  | Some rt =>
    match HandlerFuncs rt with
    | [] => [router_notFoundHandler r]
    | hs => hs
    end
  | None => [router_notFoundHandler r]
  end.

(** The function [(r *router) Serve()] registers with the event source,
    applied to one event. *)
Definition Serve (r : router) (ev : event) (l : list logRecord) : outcome :=
  match ev with
  | Malformed err => unmarshalFailure "lambdaProxy.Router.Serve" err l
  | Parsed req =>
    observe (execHandlerFuncs defaultResponse (freshWorld req l) (selected r req))
  end.

(* ===================================================================== *)
(** ** Notions the properties are stated with *)
(* ===================================================================== *)

(** The context carries the response stored last, if any was. *)
Definition consistent (w : World) : Prop :=
  Context_response (ctx w) = last (written w).

(** Every response on record, and the one on the context, has the empty
    header map. *)
Definition plainHeaders (w : World) : Prop :=
  ∀ r, Context_response (ctx w) = Some r → Headers r = EmptyHeaders.

(** The world after every handler of [hs] has run in turn, when each of
    them returned no error. *)
Fixpoint runAll (w : World) (hs : list HandlerFunc) : option World :=
  match hs with
  | [] => Some w
  | hf :: rest =>
    match Handle hf w with
    | (None, w1) => runAll w1 rest
    | (Some _, _) => None
    end
  end.

(** The zero [Request], as [new(Request)] makes it, and requests for the
    examples. *)
Definition zeroRequest : Request :=
  mkRequest
    (mkRequestContext "" "" "" "" "" ""
       (mkIdentity "" "" "" "" "" "" "" "" "" "" "") "")
    "" "" "" ∅ ∅ ∅ ∅ "".

Definition requestFor (method resource : string) : Request :=
  mkRequest (Request_RequestContext zeroRequest) method resource resource
            ∅ ∅ ∅ ∅ "".

(** The JSON text of the empty string: two double quotes. *)
Definition twoQuotes : string :=
  String json.quote (String json.quote EmptyString).

(** A request whose body is the object with members a = 1 and b = x, and
    whose query string has a = 2 and c = 3. *)
Definition bindBody : string :=
  "{" +:+ json.encodeString "a" +:+ ":" +:+ json.encodeString "1" +:+ ","
      +:+ json.encodeString "b" +:+ ":" +:+ json.encodeString "x" +:+ "}".

Definition bindRequest : Request :=
  mkRequest (Request_RequestContext zeroRequest) "POST" "/items" "/items"
            ∅ (<["a" := "2"]> (<["c" := "3"]> ∅)) ∅ ∅ bindBody.

Fixpoint allSpace (s : string) : bool :=
  match s with
  | EmptyString => true
  | String c s' => isSpace c && allSpace s'
  end.

Fixpoint isASCII (s : string) : bool :=
  match s with
  | EmptyString => true
  | String c s' => (N_of_ascii c <? 128)%N && isASCII s'
  end.

(** [b] is the lower-case form of the upper-case letter [a]. *)
Definition lowerOf (a b : ascii) : Prop :=
  isUpper a = true ∧ N_of_ascii b = (N_of_ascii a + 32)%N.

(** The two bytes are the same, or the two cases of one letter. *)
Definition sameLetter (a b : ascii) : Prop :=
  a = b ∨ lowerOf a b ∨ lowerOf b a.

(** Two strings that differ only in the case of their letters. *)
Inductive caseVariant : string → string → Prop :=
| cv_nil : caseVariant EmptyString EmptyString
| cv_cons a b s t :
    sameLetter a b → caseVariant s t →
    caseVariant (String a s) (String b t).

(** [s] is [core] with white space before and after it. *)
Definition padded (s core : string) : Prop :=
  ∃ l r, allSpace l = true ∧ allSpace r = true ∧ s = l +:+ core +:+ r.

(** Two strings that differ only in letter case and in leading and
    trailing white space. *)
Definition sameUpToCaseAndPadding (s t : string) : Prop :=
  ∃ c c', padded s c ∧ padded t c' ∧ caseVariant c c'.

(** Two runes with one lower-case form: the same rune, or one letter in
    two cases. A byte that is no valid UTF-8 counts as [RuneError]. *)
Definition sameRune (x y : Z * string) : Prop :=
  unicode.ToLower x.1 = unicode.ToLower y.1.

(** Two strings that differ only in the case of their letters, rune by
    rune. *)
Definition sameLetters (s t : string) : Prop :=
  Forall2 sameRune (utf8.runes s) (utf8.runes t).

(** Every rune of the list satisfies [f]. *)
Definition allRunes (f : Z → bool) (l : list (Z * string)) : bool :=
  forallb (λ ch, f ch.1) l.

(** A string of white space runes. *)
Definition blank (s : string) : bool :=
  allRunes unicode.IsSpace (utf8.runes s).

(** [s] is [core] with white space runes before and after it. *)
Definition spaced (s core : string) : Prop :=
  ∃ l r, blank l = true ∧ blank r = true ∧ s = l +:+ core +:+ r.

(** Two strings that differ only in letter case and in leading and
    trailing white space, for any text. *)
Definition sameUpToCaseAndSpace (s t : string) : Prop :=
  ∃ c c', spaced s c ∧ spaced t c' ∧ sameLetters c c'.

(** The suffix starts a rune: it is empty or its first byte is no
    continuation byte. *)
Definition startsRune (x : string) : bool :=
  match x with
  | EmptyString => true
  | String c _ => negb (utf8.cont c)
  end.



(** The router with the route of a method and path taken out. *)
Definition unregister (r : router) (m p : string) : router :=
  mkrouter (delete (routeKey m p) (routes r)) (router_notFoundHandler r).

(** [func NewHTTPError(code int, message string) *HTTPError]. The table
    [http.StatusText] of the standard library is a parameter. *)
Definition NewHTTPError (StatusText : Z → string) (code : Z)
  (message : string) : HTTPError :=
  let he := mkHTTPError code (StatusText code) in
  if decide (message ≠ ""%string) then mkHTTPError (Code he) message else he.

(** No byte of the string is the colon that separates the two parts of a
    route key. *)
Fixpoint noColon (s : string) : bool :=
  match s with
  | EmptyString => true
  | String c s' => negb (N_of_ascii c =? 58)%N && noColon s'
  end.

(* ===================================================================== *)
(** ** Properties of handlers *)
(* ===================================================================== *)

Lemma setCtx_id (w : World) : setCtx w (ctx w) = w.
Proof. by destruct w. Qed.

Lemma status_unfold (c : Context) (st : Z) (v : gvalue) (h : headers) :
  status c st v h =
  match json.Marshal v with
  | Ok b => (mkContext (Context_Request c) (Some (mkresponse st h b)), None)
  | Err e =>
    (c, Some (Errorf "lambdaproxy: unable to convert body to json: " e))
  end.
Proof. reflexivity. Qed.

(** The world after a response-setting method, by the two ways the
    encoding of the body can go. *)
Lemma stored_status (w : World) (st : Z) (v : gvalue) (h : headers) :
  stored w (status (ctx w) st v h) =
  match json.Marshal v with
  | Ok b =>
    mkWorld (mkContext (Context_Request (ctx w)) (Some (mkresponse st h b)))
            (log w) (calls w) (written w ++ [mkresponse st h b])
  | Err _ => w
  end.
Proof.
  rewrite status_unfold. destruct (json.Marshal v); simpl; [done|].
  unfold stored; simpl. apply setCtx_id.
Qed.

(** Whatever is kept by the three ways a handler changes the world is kept
    by every handler. *)
Lemma run_preserves (P : World → Prop) :
  (∀ w r, P w → P (setCtx w (mkContext r (Context_response (ctx w))))) →
  (∀ w rec, P w → P (addLog w rec)) →
  (∀ w st v, P w → P (stored w (status (ctx w) st v EmptyHeaders))) →
  ∀ h w, P w → P (snd (run h w)).
Proof.
  intros Hreq Hlog Hst.
  induction h as [e|k IH|r k IH|st k IH|st b k IH|st b k IH|k IH|rec k IH];
    intros w Hw; simpl.
  - done.
  - by apply IH.
  - by apply IH, Hreq.
  - by apply IH, (Hst w st (GString "")).
  - by apply IH, (Hst w st (GString b)).
  - by apply IH, (Hst w st b).
  - apply IH. by rewrite setCtx_id.
  - by apply IH, Hlog.
Qed.

Lemma Handle_preserves (P : World → Prop) :
  (∀ w r, P w → P (setCtx w (mkContext r (Context_response (ctx w))))) →
  (∀ w rec, P w → P (addLog w rec)) →
  (∀ w st v, P w → P (stored w (status (ctx w) st v EmptyHeaders))) →
  (∀ w, P w → P (called w)) →
  ∀ h w, P w → P (snd (Handle h w)).
Proof.
  intros Hreq Hlog Hst Hc h w Hw. unfold Handle.
  by apply run_preserves, Hc.
Qed.

Lemma Handle_consistent (h : HandlerFunc) (w : World) :
  consistent w → consistent (snd (Handle h w)).
Proof.
  apply (Handle_preserves consistent); unfold consistent; try done.
  intros w0 st v Hw. rewrite stored_status.
  destruct (json.Marshal v); simpl; [|done].
  by rewrite last_snoc.
Qed.

Lemma Handle_plainHeaders (h : HandlerFunc) (w : World) :
  plainHeaders w → plainHeaders (snd (Handle h w)).
Proof.
  apply (Handle_preserves plainHeaders); unfold plainHeaders; try done.
  intros w0 st v Hw r. rewrite stored_status.
  destruct (json.Marshal v); simpl; [|by apply Hw].
  by intros [= <-].
Qed.

Lemma Handle_calls (h : HandlerFunc) (w : World) :
  calls (snd (Handle h w)) = S (calls w).
Proof.
  unfold Handle.
  apply (run_preserves (λ w1, calls w1 = S (calls w))); try done.
  intros w0 st v Hw. rewrite stored_status. by destruct (json.Marshal v).
Qed.

Lemma Handle_written (h : HandlerFunc) (w : World) :
  ∃ l, written (snd (Handle h w)) = written w ++ l.
Proof.
  unfold Handle.
  apply (run_preserves (λ w1, ∃ l, written w1 = written w ++ l)); try done.
  - intros w0 st v [l Hl]. rewrite stored_status.
    destruct (json.Marshal v) as [b|e]; simpl; [|by exists l].
    exists (l ++ [mkresponse st EmptyHeaders b]). by rewrite Hl, app_assoc.
  - exists []. simpl. by rewrite app_nil_r.
Qed.

(* ===================================================================== *)
(** ** Properties of the executor *)
(* ===================================================================== *)

Lemma runAll_calls (hs : list HandlerFunc) (w w' : World) :
  runAll w hs = Some w' → calls w' = (calls w + length hs)%nat.
Proof.
  revert w. induction hs as [|hf rest IH]; intros w; simpl.
  - intros [= <-]. lia.
  - pose proof (Handle_calls hf w) as Hc.
    destruct (Handle hf w) as [[e|] w1]; [done|]. simpl in Hc.
    intros H. rewrite (IH _ H), Hc. lia.
Qed.

Lemma runAll_written (hs : list HandlerFunc) (w w' : World) :
  runAll w hs = Some w' → ∃ l, written w' = written w ++ l.
Proof.
  revert w. induction hs as [|hf rest IH]; intros w; simpl.
  - intros [= <-]. exists []. by rewrite app_nil_r.
  - destruct (Handle_written hf w) as [l1 H1].
    destruct (Handle hf w) as [[e|] w1]; [done|]. simpl in H1.
    intros H. destruct (IH _ H) as [l2 H2].
    exists (l1 ++ l2). by rewrite H2, H1, app_assoc.
Qed.

(** A chain whose handlers all return no error: the executor ends in the
    world [runAll] describes and returns the response stored last, or the
    candidate it was given when nothing is on record. *)
Lemma exec_all_ok (hs : list HandlerFunc) (resp : response) (w w' : World) :
  consistent w →
  (∀ r, last (written w) = Some r → resp = r) →
  runAll w hs = Some w' →
  execHandlerFuncs resp w hs = (default resp (last (written w')), w').
Proof.
  revert resp w. induction hs as [|hf rest IH]; intros resp w Hc Hr; simpl.
  - intros [= <-]. destruct (last (written w)) as [r|] eqn:E; simpl; [|done].
    by rewrite (Hr r).
  - pose proof (Handle_consistent hf w Hc) as Hc1.
    destruct (Handle_written hf w) as [l1 H1].
    destruct (Handle hf w) as [[e|] w1]; [done|]. simpl in Hc1, H1.
    intros H. unfold consistent in Hc1. rewrite Hc1.
    rewrite (IH _ w1 Hc1); [| |done].
    + destruct (runAll_written _ _ _ H) as [l2 H2].
      destruct (last (written w')) as [r'|] eqn:E'; simpl; [done|].
      apply last_None in E'. rewrite E' in H2.
      symmetry in H2. apply app_eq_nil in H2 as [H2 _]. by rewrite H2.
    + intros r Hl. by rewrite Hl.
Qed.

(** Handlers that return no error in front of a chain are passed over by
    the executor, which goes on from the world they leave with some
    candidate response. *)
Lemma exec_app (hs1 hs2 : list HandlerFunc) (resp : response) (w w1 : World) :
  runAll w hs1 = Some w1 →
  ∃ resp1, execHandlerFuncs resp w (hs1 ++ hs2) = execHandlerFuncs resp1 w1 hs2.
Proof.
  revert resp w. induction hs1 as [|h rest IH]; intros resp w; simpl.
  - intros [= <-]. by exists resp.
  - destruct (Handle h w) as [[e|] w0]; [done|]. intros H. by apply IH.
Qed.

Lemma exec_plainHeaders (hs : list HandlerFunc) (resp : response) (w : World) :
  plainHeaders w → Headers resp = EmptyHeaders →
  Headers (fst (execHandlerFuncs resp w hs)) = EmptyHeaders.
Proof.
  revert resp w. induction hs as [|hf rest IH]; intros resp w Hw Hr; simpl.
  - done.
  - pose proof (Handle_plainHeaders hf w Hw) as Hw1.
    destruct (Handle hf w) as [[[he|msg]|] w1]; simpl in *; [done..|].
    apply IH; [done|].
    destruct (Context_response (ctx w1)) as [r|] eqn:E; [|done].
    by apply Hw1.
Qed.

Lemma freshWorld_consistent (req : Request) (l : list logRecord) :
  consistent (freshWorld req l).
Proof. reflexivity. Qed.

Lemma freshWorld_plainHeaders (req : Request) (l : list logRecord) :
  plainHeaders (freshWorld req l).
Proof. intros r. simpl. done. Qed.

(* ===================================================================== *)
(** ** The executor: last response wins, first error wins *)
(* ===================================================================== *)

(** C1. When every handler of a chain returns no error, the executor calls
    each of them once, in order (a stored response does not end the
    chain), and returns the response stored last on the context, or the
    default response when none was stored. *)
Theorem C1_last_response_wins (hs : list HandlerFunc) (req : Request)
  (l : list logRecord) (w' : World) :
  runAll (freshWorld req l) hs = Some w' →
  execHandlerFuncs defaultResponse (freshWorld req l) hs
    = (default defaultResponse (last (written w')), w')
  ∧ calls w' = length hs
  ∧ defaultResponse = mkresponse 204 (Some ∅) "".
Proof.
  intros H. split; [|split; [|done]].
  - apply exec_all_ok; [apply freshWorld_consistent| |done].
    simpl. done.
  - by rewrite (runAll_calls _ _ _ H).
Qed.

Lemma C1_last_response_wins_witness :
  ∃ w', runAll (freshWorld zeroRequest [])
               [CallString 200 "one" Return; CallContinue Return;
                CallString 201 "two" Return; CallContinue Return] = Some w'
        ∧ calls w' = 4%nat
        ∧ fst (execHandlerFuncs defaultResponse (freshWorld zeroRequest [])
                 [CallString 200 "one" Return; CallContinue Return;
                  CallString 201 "two" Return; CallContinue Return])
          = mkresponse 201 EmptyHeaders (json.encodeString "two").
Proof.
  eexists. split; [vm_compute; reflexivity|].
  pose proof (C1_last_response_wins
    [CallString 200 "one" Return; CallContinue Return;
     CallString 201 "two" Return; CallContinue Return]
    zeroRequest [] _ eq_refl) as [He [Hc _]].
  split; [exact Hc|]. rewrite He. reflexivity.
Defined.

(** C2. When a handler returns an [HTTPError], the executor stops there:
    the handlers after it are not called, and the response has the
    error's code as status, the error's message as body, and the empty
    header map. *)
Theorem C2_http_error_stops (hs1 hs2 : list HandlerFunc) (hf : HandlerFunc)
  (he : HTTPError) (resp : response) (w w1 w2 : World) :
  runAll w hs1 = Some w1 →
  Handle hf w1 = (Some (HTTPErr he), w2) →
  execHandlerFuncs resp w (hs1 ++ hf :: hs2)
    = (mkresponse (Code he) (Some ∅) (Message he), w2)
  ∧ calls w2 = (calls w + length hs1 + 1)%nat.
Proof.
  intros H1 H2. split.
  - destruct (exec_app hs1 (hf :: hs2) resp w w1 H1) as [resp1 ->].
    simpl. by rewrite H2.
  - pose proof (Handle_calls hf w1) as Hc. rewrite H2 in Hc. simpl in Hc.
    rewrite Hc, (runAll_calls _ _ _ H1). lia.
Qed.

Lemma C2_http_error_stops_witness :
  ∃ w2, execHandlerFuncs defaultResponse (freshWorld zeroRequest [])
          ([CallContinue Return]
             ++ Return (Some (HTTPErr (mkHTTPError 404 "missing")))
             :: [CallString 200 "late" Return])
        = (mkresponse 404 (Some ∅) "missing", w2)
        ∧ calls w2 = 2%nat ∧ written w2 = [].
Proof.
  eexists. split; [|split].
  - apply (C2_http_error_stops [CallContinue Return]
             [CallString 200 "late" Return]
             (Return (Some (HTTPErr (mkHTTPError 404 "missing"))))
             (mkHTTPError 404 "missing") defaultResponse
             (freshWorld zeroRequest []) _ _ eq_refl eq_refl).
  - reflexivity.
  - reflexivity.
Defined.

(** C5. When a handler returns an error that is not an [HTTPError], the
    executor stops there: the handlers after it are not called, the error
    goes to the log, and the response is the fixed internal-error
    response (status 500, the status text as body, the empty header map)
    whatever the error's message is. *)
Theorem C5_internal_error_is_generic (hs1 hs2 : list HandlerFunc)
  (hf : HandlerFunc) (msg : string) (resp : response) (w w1 w2 : World) :
  runAll w hs1 = Some w1 →
  Handle hf w1 = (Some (OtherErr msg), w2) →
  execHandlerFuncs resp w (hs1 ++ hf :: hs2)
    = (mkresponse 500 (Some ∅) "Internal Server Error",
       addLog w2 (Printf
         "[ERROR] lambdaProxy.Handle: error processing function handler: %s"
         (ArgError (OtherErr msg))))
  ∧ calls w2 = (calls w + length hs1 + 1)%nat.
Proof.
  intros H1 H2. split.
  - destruct (exec_app hs1 (hf :: hs2) resp w w1 H1) as [resp1 ->].
    simpl. by rewrite H2.
  - pose proof (Handle_calls hf w1) as Hc. rewrite H2 in Hc. simpl in Hc.
    rewrite Hc, (runAll_calls _ _ _ H1). lia.
Qed.

Lemma C5_internal_error_is_generic_witness :
  ∃ w2, fst (execHandlerFuncs defaultResponse (freshWorld zeroRequest [])
          ([CallString 200 "early" Return]
             ++ Return (Some (OtherErr "db password is hunter2"))
             :: [CallString 200 "late" Return]))
        = mkresponse 500 (Some ∅) "Internal Server Error"
        ∧ calls w2 = 2%nat.
Proof.
  eexists.
  pose proof (C5_internal_error_is_generic [CallString 200 "early" Return]
             [CallString 200 "late" Return]
             (Return (Some (OtherErr "db password is hunter2")))
             "db password is hunter2" defaultResponse
             (freshWorld zeroRequest []) _ _ eq_refl eq_refl) as [He Hc].
  split; [by rewrite He | exact Hc].
Defined.

(** C10. Every response the core hands back, on every path (a malformed
    event, an [HTTPError], an internal error, a response a handler
    stored, the default response, the not-found handler), has a header
    map that is present. *)
Theorem C10_headers_always_present (r : router) (hs : list HandlerFunc)
  (ev : event) (l : list logRecord) :
  Headers (fst (fst (Serve r ev l))) ≠ None
  ∧ Headers (fst (fst (HandleEvent hs ev l))) ≠ None.
Proof.
  assert (∀ hs' req, Headers (fst (fst (observe
            (execHandlerFuncs defaultResponse (freshWorld req l) hs'))))
          ≠ None) as Hexec.
  { intros hs' req. simpl.
    rewrite exec_plainHeaders; [done|apply freshWorld_plainHeaders|done]. }
  destruct ev as [err|req]; simpl; [done|].
  split; apply Hexec.
Qed.

(* ===================================================================== *)
(** ** The response-setting methods *)
(* ===================================================================== *)

Lemma string_of_list_ascii_snoc (l : list ascii) (c : ascii) :
  string_of_list_ascii (l ++ [c])
  = string_of_list_ascii l +:+ String c EmptyString.
Proof. induction l as [|a l IH]; simpl; [done|]. by rewrite IH. Qed.

Lemma encodeString_quoted (s : string) :
  ∃ t, json.encodeString s
       = String json.quote (t +:+ String json.quote EmptyString).
Proof.
  unfold json.encodeString. simpl.
  rewrite string_of_list_ascii_snoc. by eexists.
Qed.

(** C4, as the code has it. Each of the three methods stores a response
    with the given status and the empty header map, and every body goes
    through the JSON encoder: [NoContent] stores the encoding of the empty
    string (two double quotes), [String] stores the quoted and escaped
    string, [JSON] stores the encoding of its argument, or returns an
    error and leaves the context as it was when the value cannot be
    encoded. *)
Theorem C4_status_methods_encode_json (c : Context) (st : Z) :
  NoContent c st
    = (mkContext (Context_Request c)
         (Some (mkresponse st (Some ∅) twoQuotes)), None)
  ∧ (∀ body : string,
       String_ c st body
         = (mkContext (Context_Request c)
              (Some (mkresponse st (Some ∅) (json.encodeString body))), None)
       ∧ ∃ t, json.encodeString body
              = String json.quote (t +:+ String json.quote EmptyString))
  ∧ (∀ v : gvalue,
       JSON c st v
         = match json.Marshal v with
           | Ok b =>
             (mkContext (Context_Request c)
                (Some (mkresponse st (Some ∅) b)), None)
           | Err e =>
             (c, Some (Errorf "lambdaproxy: unable to convert body to json: " e))
           end).
Proof.
  split; [reflexivity|]. split.
  - intros body. split; [reflexivity|apply encodeString_quoted].
  - intros v. unfold JSON. apply status_unfold.
Qed.

(** C4, as stated, fails: [NoContent] does not store an empty body and
    [String] does not store the raw string. *)
Lemma C4_counterexample :
  (∃ r, Context_response (fst (NoContent (mkContext zeroRequest None) 204))
        = Some r
        ∧ Body r = twoQuotes ∧ Body r ≠ ""%string)
  ∧ (∃ r, Context_response (fst (String_ (mkContext zeroRequest None) 200 "ok"))
          = Some r
          ∧ Body r = String json.quote ("ok" +:+ String json.quote EmptyString)
          ∧ Body r ≠ "ok"%string).
Proof.
  split; eexists; (split; [reflexivity|]); split; try reflexivity;
    vm_compute; discriminate.
Qed.

(** C6, as the code has it. With the default not-found handler and no
    route for the request, the dispatch writes the context to the log and
    returns status 404 with the empty header map; the body is the JSON
    text of the empty string, two double quotes. *)
Theorem C6_default_not_found (r : router) (req : Request)
  (l : list logRecord) :
  router_notFoundHandler r = notFoundHandler →
  routes r !! routeKey (HTTPMethod req) (Resource req) = None →
  Serve r (Parsed req) l
    = (mkresponse 404 (Some ∅) twoQuotes,
       l ++ [Printf "[DEBUG] Context: \n%s" (ArgContextJSON req)],
       1%nat).
Proof.
  intros Hnf Hr. unfold Serve, selected. rewrite Hr, Hnf. reflexivity.
Qed.

Lemma C6_default_not_found_witness :
  Serve NewRouter (Parsed (requestFor "GET" "/missing")) []
    = (mkresponse 404 (Some ∅) twoQuotes,
       [Printf "[DEBUG] Context: \n%s"
               (ArgContextJSON (requestFor "GET" "/missing"))],
       1%nat).
Proof.
  apply (C6_default_not_found NewRouter (requestFor "GET" "/missing") []);
    reflexivity.
Defined.

(** C6, as stated, fails: the body of the default not-found response is
    not empty. *)
Lemma C6_counterexample :
  ∃ r, fst (fst (Serve NewRouter (Parsed (requestFor "GET" "/missing")) [])) = r
       ∧ StatusCode r = 404 ∧ Body r = twoQuotes ∧ Body r ≠ ""%string.
Proof.
  eexists. split; [reflexivity|]. split; [reflexivity|].
  split; [reflexivity|]. vm_compute. discriminate.
Qed.

(* ===================================================================== *)
(** ** Binding *)
(* ===================================================================== *)

Lemma mergo_Map_lookup (dst src m : gmap string string) (k : string) :
  mergo.Map dst src = Ok m →
  m !! k = match dst !! k, src !! k with
           | Some d, Some s => Some (if mergo.isEmptyValue d then s else d)
           | Some d, None => Some d
           | None, o => o
           end.
Proof.
  unfold mergo.Map. intros [= <-]. rewrite lookup_union_with.
  by destruct (dst !! k), (src !! k).
Qed.

(** C3, as the code has it, for a target that is a string map. The body is
    decoded into the target first; the query string then fills in what the
    body left unset, without overwriting: a key the body gave a non-empty
    value keeps that value also when the query string has the key, a key
    only in the body keeps its value, and a key only in the query string
    is present with the query string's value. *)
Theorem C3_bind_body_then_query
  (Unmarshal : string → gmap string string → result (gmap string string))
  (c : Context) (m m1 : gmap string string) :
  Unmarshal (Request_Body (Context_Request c)) m = Ok m1 →
  ∃ m2, Bind Unmarshal c m = Ok m2
    ∧ ∀ k : string,
        (∀ b, m1 !! k = Some b → b ≠ ""%string → m2 !! k = Some b)
        ∧ (∀ b, m1 !! k = Some b →
                QueryStringParameters (Context_Request c) !! k = None →
                m2 !! k = Some b)
        ∧ (m1 !! k = None →
           m2 !! k = QueryStringParameters (Context_Request c) !! k).
Proof.
  intros Hu. unfold Bind. rewrite Hu.
  destruct (mergo.Map m1 (QueryStringParameters (Context_Request c)))
    as [m2|e] eqn:Hm; [|discriminate Hm].
  exists m2. split; [done|]. intros k.
  rewrite (mergo_Map_lookup _ _ _ k Hm).
  split; [|split].
  - intros b -> Hb.
    destruct (QueryStringParameters (Context_Request c) !! k); [|done].
    unfold mergo.isEmptyValue. by destruct (decide (b = ""%string)).
  - by intros b -> ->.
  - by intros ->.
Qed.

Lemma C3_bind_body_then_query_witness :
  ∃ m2, Bind jsondec.Unmarshal (mkContext bindRequest None) ∅ = Ok m2
        ∧ m2 !! "a" = Some "1"%string
        ∧ m2 !! "b" = Some "x"%string
        ∧ m2 !! "c" = Some "3"%string.
Proof.
  edestruct (C3_bind_body_then_query jsondec.Unmarshal
               (mkContext bindRequest None) ∅) as [m2 [Hb Hk]].
  { vm_compute. reflexivity. }
  exists m2. split; [exact Hb|]. split; [|split].
  - apply (proj1 (Hk "a"%string)); [reflexivity|discriminate].
  - apply (proj1 (Hk "b"%string)); [reflexivity|discriminate].
  - rewrite (proj2 (proj2 (Hk "c"%string))); reflexivity.
Defined.

(** C3, as stated, fails: for a key in both the body and the query string
    the body's value stays. *)
Lemma C3_counterexample :
  ∃ m2, Bind jsondec.Unmarshal (mkContext bindRequest None) ∅ = Ok m2
        ∧ QueryStringParameters bindRequest !! "a" = Some "2"%string
        ∧ m2 !! "a" = Some "1"%string
        ∧ m2 !! "a" ≠ Some "2"%string.
Proof.
  eexists. split; [vm_compute; reflexivity|].
  split; [reflexivity|]. split; [reflexivity|]. vm_compute. discriminate.
Qed.

(* ===================================================================== *)
(** ** Route keys *)
(* ===================================================================== *)

(** *** Decoding UTF-8 *)

Lemma append_nil_l (s : string) : EmptyString +:+ s = s.
Proof. reflexivity. Qed.

Lemma append_cons (c : ascii) (s t : string) :
  String c s +:+ t = String c (s +:+ t).
Proof. reflexivity. Qed.

Lemma append_nil_r (s : string) : s +:+ EmptyString = s.
Proof. induction s as [|c s IH]; [done|]. by rewrite append_cons, IH. Qed.

Lemma append_assoc (a b c : string) : (a +:+ b) +:+ c = a +:+ (b +:+ c).
Proof.
  induction a as [|x a IH]; [done|]. by rewrite !append_cons, IH.
Qed.

Lemma append_length (a b : string) :
  String.length (a +:+ b) = (String.length a + String.length b)%nat.
Proof.
  induction a as [|x a IH]; [done|]. rewrite append_cons. simpl. by rewrite IH.
Qed.

Ltac norm_app := repeat (rewrite append_cons || rewrite append_nil_l).

Lemma accept_cont (c0 c1 : ascii) :
  utf8.accept c0 c1 = true → utf8.cont c1 = true.
Proof.
  unfold utf8.accept, utf8.cont, utf8.within.
  repeat case_match; rewrite !andb_true_iff, !Z.leb_le; lia.
Qed.

Lemma DecodeRune_bytes (s : string) r b rest :
  utf8.DecodeRuneInString s = Some (r, b, rest) →
  s = b +:+ rest ∧ (String.length rest < String.length s)%nat.
Proof.
  destruct s as [|c0 s1]; [done|]. unfold utf8.DecodeRuneInString.
  repeat case_match; intros [= <- <- <-];
    (split; [reflexivity | simpl; lia]).
Qed.

Lemma DecodeRune_None (s : string) :
  utf8.DecodeRuneInString s = None → s = EmptyString.
Proof.
  destruct s as [|c0 s1]; [done|]. unfold utf8.DecodeRuneInString.
  repeat case_match; done.
Qed.

Lemma DecodeRune_app_start (a x : string) r b rest :
  utf8.DecodeRuneInString a = Some (r, b, rest) → startsRune x = true →
  utf8.DecodeRuneInString (a +:+ x) = Some (r, b, rest +:+ x).
Proof.
  intros Ha Hx.
  assert (Hc : ∀ c x', x = String c x' → utf8.cont c = false).
  { intros c x' ->. simpl in Hx. by destruct (utf8.cont c). }
  assert (Hacc : ∀ c0 c x', x = String c x' → utf8.accept c0 c = false).
  { intros c0 c x' Hxe. destruct (utf8.accept c0 c) eqn:E; [|done].
    apply accept_cont in E. by rewrite (Hc c x' Hxe) in E. }
  destruct a as [|c0 a1]; [done|]. rewrite append_cons.
  unfold utf8.DecodeRuneInString in *.
  destruct (utf8.code c0 <? utf8.RuneSelf); [by inversion Ha|].
  destruct (utf8.within 194 223 c0).
  { destruct a1 as [|c1 a2]; norm_app.
    - inversion Ha; subst. destruct x as [|c x']; [done|].
      by rewrite (Hc c x' eq_refl).
    - destruct (utf8.cont c1); by inversion Ha. }
  destruct (utf8.within 224 239 c0).
  { destruct a1 as [|c1 [|c2 a3]]; norm_app.
    - inversion Ha; subst. destruct x as [|c [|c' x']]; [done..|].
      by rewrite (Hacc c0 c _ eq_refl).
    - inversion Ha; subst. destruct x as [|c x']; [done|].
      by rewrite (Hc c x' eq_refl), andb_false_r.
    - destruct (utf8.accept c0 c1 && utf8.cont c2); by inversion Ha. }
  destruct (utf8.within 240 244 c0).
  { destruct a1 as [|c1 [|c2 [|c3 a4]]]; norm_app.
    - inversion Ha; subst. destruct x as [|c [|c' [|c'' x']]]; [done..|].
      by rewrite (Hacc c0 c _ eq_refl).
    - inversion Ha; subst. destruct x as [|c [|c' x']]; [done..|].
      by rewrite (Hc c _ eq_refl), andb_false_r.
    - inversion Ha; subst. destruct x as [|c x']; [done|].
      by rewrite (Hc c x' eq_refl), andb_false_r.
    - destruct (utf8.accept c0 c1 && utf8.cont c2 && utf8.cont c3);
        by inversion Ha. }
  by inversion Ha.
Qed.



Lemma DecodeRune_ascii (c : ascii) (s : string) :
  (N_of_ascii c <? 128)%N = true →
  utf8.DecodeRuneInString (String c s)
  = Some (utf8.code c, String c EmptyString, s).
Proof.
  intros H. unfold utf8.DecodeRuneInString.
  replace (utf8.code c <? utf8.RuneSelf) with true; [done|].
  symmetry. apply Z.ltb_lt. apply N.ltb_lt in H.
  unfold utf8.code, utf8.RuneSelf. lia.
Qed.

Lemma decode_fuel (n : nat) : ∀ (m : nat) (s : string),
  (String.length s ≤ n)%nat → (String.length s ≤ m)%nat →
  utf8.decode n s = utf8.decode m s.
Proof.
  induction n as [|n IH]; intros m s Hn Hm.
  { destruct s; [by destruct m|simpl in Hn; lia]. }
  destruct m as [|m]; [destruct s; [done|simpl in Hm; lia]|].
  cbn [utf8.decode].
  destruct (utf8.DecodeRuneInString s) as [[[r b] rest]|] eqn:E; [|done].
  apply DecodeRune_bytes in E as [_ Hlt].
  rewrite (IH m rest); [done|lia..].
Qed.

Lemma decode_enough (n : nat) (s : string) :
  (String.length s ≤ n)%nat → utf8.decode n s = utf8.runes s.
Proof. intros Hn. by apply decode_fuel. Qed.

Lemma runes_unfold (s : string) :
  utf8.runes s = match utf8.DecodeRuneInString s with
                 | None => []
                 | Some (r, b, rest) => (r, b) :: utf8.runes rest
                 end.
Proof.
  destruct s as [|c s]; [done|]. unfold utf8.runes at 1.
  change (String.length (String c s)) with (S (String.length s)).
  cbn [utf8.decode].
  destruct (utf8.DecodeRuneInString (String c s)) as [[[r b] rest]|] eqn:E;
    [|done].
  apply DecodeRune_bytes in E as [_ Hlt]. simpl in Hlt.
  rewrite decode_enough; [done|lia].
Qed.

Lemma runes_nil : utf8.runes EmptyString = [].
Proof. reflexivity. Qed.

(** Induction on a string along its runes. *)
Lemma rune_ind (P : string → Prop) :
  P EmptyString →
  (∀ s r b rest, utf8.DecodeRuneInString s = Some (r, b, rest) →
                 P rest → P s) →
  ∀ s, P s.
Proof.
  intros H0 Hstep s.
  remember (String.length s) as n eqn:Hn.
  revert s Hn. induction (lt_wf n) as [n _ IH]. intros s ->.
  destruct (utf8.DecodeRuneInString s) as [[[r b] rest]|] eqn:E.
  - apply (Hstep s r b rest E).
    apply DecodeRune_bytes in E as [_ Hlt]. by apply (IH _ Hlt).
  - by rewrite (DecodeRune_None s E).
Qed.


Lemma join_cons ch (l : list (Z * string)) :
  utf8.join (ch :: l) = ch.2 +:+ utf8.join l.
Proof. reflexivity. Qed.

Lemma join_runes (s : string) : utf8.join (utf8.runes s) = s.
Proof.
  induction s as [|s r b rest E IH] using rune_ind; [done|].
  rewrite runes_unfold, E, join_cons, IH. simpl.
  by apply DecodeRune_bytes in E as [-> _].
Qed.

Lemma runes_app_start (a x : string) :
  startsRune x = true → utf8.runes (a +:+ x) = utf8.runes a ++ utf8.runes x.
Proof.
  intros Hx. induction a as [|a r b rest E IH] using rune_ind; [done|].
  rewrite (runes_unfold (a +:+ x)), (DecodeRune_app_start a x r b rest E Hx).
  by rewrite (runes_unfold a), E, IH.
Qed.





(** *** Trimming a list of runes *)

Section trim.
Variable f : Z → bool.











End trim.

(** *** The table of lower-case forms *)

Lemma to_outside (l : list unicode.CaseRange) (r : Z) :
  existsb (λ cr, (unicode.Lo cr <=? r) && (r <=? unicode.Hi cr)) l = false →
  unicode.to l r = r.
Proof.
  induction l as [|cr l IH]; [done|]. simpl.
  intros [H1 H2]%orb_false_iff. rewrite H1. by apply IH.
Qed.

(** A rune is its own lower-case form, or it is an upper-case letter of
    ASCII or lies in a range of the table. *)
Lemma ToLower_cases (r : Z) :
  unicode.ToLower r = r
  ∨ In r (seqZ 65 26
          ++ flat_map (λ cr, seqZ (unicode.Lo cr)
                               (unicode.Hi cr - unicode.Lo cr + 1))
                      unicode.CaseRanges).
Proof.
  unfold unicode.ToLower. destruct (r <=? 127).
  - destruct ((65 <=? r) && (r <=? 90)) eqn:E; [right|by left].
    apply andb_true_iff in E as [H1%Z.leb_le H2%Z.leb_le].
    apply in_or_app. left. apply list_elem_of_In, elem_of_seqZ. lia.
  - destruct (existsb (λ cr, (unicode.Lo cr <=? r) && (r <=? unicode.Hi cr))
                unicode.CaseRanges) eqn:E.
    + right. apply in_or_app. right.
      apply existsb_exists in E as (cr & Hin & Hr).
      apply andb_true_iff in Hr as [H1%Z.leb_le H2%Z.leb_le].
      apply in_flat_map. exists cr. split; [done|].
      apply list_elem_of_In, elem_of_seqZ. lia.
    + left. by apply to_outside.
Qed.

Lemma ToLower_table :
  forallb (λ r, (unicode.ToLower (unicode.ToLower r) =? unicode.ToLower r)
                && eqb (unicode.IsSpace (unicode.ToLower r))
                       (unicode.IsSpace r))
          (seqZ 65 26
           ++ flat_map (λ cr, seqZ (unicode.Lo cr)
                                (unicode.Hi cr - unicode.Lo cr + 1))
                       unicode.CaseRanges) = true.
Proof. vm_compute. reflexivity. Qed.

(** Lower-casing a rune twice is lower-casing it once. *)
Lemma ToLower_idempotent (r : Z) :
  unicode.ToLower (unicode.ToLower r) = unicode.ToLower r.
Proof.
  destruct (ToLower_cases r) as [H|H]; [by rewrite !H|].
  pose proof ToLower_table as T. rewrite forallb_forall in T.
  apply T in H. apply andb_true_iff in H as [H _]. by apply Z.eqb_eq in H.
Qed.


(** *** [TrimSpace], [ToLower] and the key *)





Lemma mapRunes_app (g : Z → Z) (l1 l2 : list (Z * string)) :
  mapRunes g (l1 ++ l2) = mapRunes g l1 +:+ mapRunes g l2.
Proof.
  induction l1 as [|ch l1 IH]; [done|].
  cbn [app]. unfold mapRunes in *. cbn [foldr]. rewrite IH.
  destruct (0 <=? g ch.1); [by rewrite append_assoc|done].
Qed.



(** A letter and its lower-case form are the same letter. *)
Lemma sameRune_lower (r : Z) (b b' : string) :
  sameRune (r, b) (unicode.ToLower r, b').
Proof. unfold sameRune. simpl. by rewrite ToLower_idempotent. Qed.


Lemma runes_colon (b : string) :
  utf8.runes (":" +:+ b) = (58, ":"%string) :: utf8.runes b.
Proof. rewrite append_cons, append_nil_l, runes_unfold. by rewrite DecodeRune_ascii. Qed.

Lemma routeKey_parts (m p : string) :
  routeKey m p
  = ToLower (TrimSpace m) +:+ ":" +:+ ToLower (TrimSpace p).
Proof.
  unfold routeKey, ToLower, strings_Map.
  rewrite runes_app_start; [|done].
  by rewrite runes_colon, mapRunes_app.
Qed.



(** *** ASCII text *)

Lemma ascii_code (c : ascii) :
  (N_of_ascii c <? 128)%N = true →
  unicode.IsSpace (utf8.code c) = isSpace c
  ∧ (0 <=? unicode.ToLower (utf8.code c)) = true
  ∧ utf8.EncodeRune (unicode.ToLower (utf8.code c))
    = String (toLower c) EmptyString.
Proof.
  destruct c as [[] [] [] [] [] [] [] []]; intros H;
    try discriminate H; vm_compute; done.
Qed.

Lemma runes_ascii_cons (c : ascii) (s : string) :
  (N_of_ascii c <? 128)%N = true →
  utf8.runes (String c s)
  = (utf8.code c, String c EmptyString) :: utf8.runes s.
Proof. intros H. by rewrite runes_unfold, DecodeRune_ascii. Qed.

Lemma ToLower_ascii (s : string) :
  isASCII s = true → ToLower s = lowerASCII s.
Proof.
  unfold ToLower, strings_Map.
  induction s as [|c s IH]; [done|]. simpl.
  intros [Hc Hs]%andb_true_iff. rewrite runes_ascii_cons; [|done].
  destruct (ascii_code c Hc) as (_ & H0 & He).
  unfold mapRunes in *. cbn [foldr fst]. by rewrite H0, He, IH.
Qed.

Lemma isASCII_app (a b : string) :
  isASCII (a +:+ b) = isASCII a && isASCII b.
Proof.
  induction a as [|c a IH]; [done|]. rewrite append_cons. simpl.
  by rewrite IH, andb_assoc.
Qed.

Lemma isASCII_trimLeft (s : string) :
  isASCII s = true → isASCII (trimLeft s) = true.
Proof.
  induction s as [|c s IH]; [done|]. simpl.
  intros H. destruct (isSpace c); [|done].
  apply IH. by apply andb_true_iff in H as [_ ?].
Qed.

Lemma isASCII_trimRight (s : string) :
  isASCII s = true → isASCII (trimRight s) = true.
Proof.
  induction s as [|c s IH]; [done|]. simpl.
  intros [Hc Hs]%andb_true_iff. specialize (IH Hs).
  destruct (trimRight s) as [|c' t].
  - destruct (isSpace c); [done|]. simpl. by rewrite Hc.
  - cbn [isASCII] in *. by rewrite Hc.
Qed.

Lemma isASCII_trimASCII (s : string) :
  isASCII s = true → isASCII (trimASCII s) = true.
Proof. intros H. by apply isASCII_trimRight, isASCII_trimLeft. Qed.

Lemma trimLeftFunc_ascii (s : string) :
  isASCII s = true →
  trimLeftFunc unicode.IsSpace (utf8.runes s) = utf8.runes (trimLeft s).
Proof.
  induction s as [|c s IH]; [done|]. simpl.
  intros [Hc Hs]%andb_true_iff. rewrite runes_ascii_cons; [|done].
  cbn [trimLeftFunc fst]. destruct (ascii_code c Hc) as (-> & _).
  destruct (isSpace c); [by apply IH|]. by rewrite runes_ascii_cons.
Qed.

Lemma trimRightFunc_ascii (s : string) :
  isASCII s = true →
  trimRightFunc unicode.IsSpace (utf8.runes s) = utf8.runes (trimRight s).
Proof.
  induction s as [|c s IH]; [done|]. simpl.
  intros [Hc Hs]%andb_true_iff. rewrite runes_ascii_cons; [|done].
  cbn [trimRightFunc fst]. rewrite (IH Hs).
  destruct (ascii_code c Hc) as (-> & _).
  pose proof (isASCII_trimRight s Hs) as Ht.
  destruct (trimRight s) as [|c' t].
  - rewrite runes_nil. destruct (isSpace c); [done|].
    by rewrite runes_ascii_cons.
  - simpl in Ht. apply andb_true_iff in Ht as [Hc' Ht].
    rewrite (runes_ascii_cons c' t Hc').
    rewrite (runes_ascii_cons c); [|done]. by rewrite (runes_ascii_cons c' t).
Qed.

Lemma TrimSpace_ascii (s : string) :
  isASCII s = true → TrimSpace s = trimASCII s.
Proof.
  intros H. unfold TrimSpace, trimASCII.
  rewrite trimLeftFunc_ascii; [|done].
  rewrite trimRightFunc_ascii; [|by apply isASCII_trimLeft].
  apply join_runes.
Qed.

Lemma routeKey_ascii (m p : string) :
  isASCII m = true → isASCII p = true →
  routeKey m p = lowerASCII (trimASCII m +:+ ":" +:+ trimASCII p).
Proof.
  intros Hm Hp. unfold routeKey.
  rewrite (TrimSpace_ascii m Hm), (TrimSpace_ascii p Hp).
  apply ToLower_ascii. rewrite !isASCII_app.
  by rewrite (isASCII_trimASCII m Hm), (isASCII_trimASCII p Hp).
Qed.

(** *** Letter case and white space in ASCII text *)

Lemma lowerOf_toLower (a b : ascii) : lowerOf a b → toLower a = toLower b.
Proof.
  intros [Hu Hb]. unfold toLower. rewrite Hu.
  assert (isUpper b = false) as ->.
  { unfold isUpper in *. rewrite Hb.
    apply andb_true_iff in Hu as [H1 H2].
    apply N.leb_le in H1, H2. apply andb_false_iff. right.
    apply N.leb_gt. lia. }
  by rewrite <- Hb, ascii_N_embedding.
Qed.

Lemma lowerOf_isSpace (a b : ascii) :
  lowerOf a b → isSpace a = false ∧ isSpace b = false.
Proof.
  intros [Hu Hb]. unfold isSpace, isUpper in *. rewrite Hb.
  apply andb_true_iff in Hu as [H1 H2]. apply N.leb_le in H1, H2.
  split; apply orb_false_iff; split;
    try (apply andb_false_iff; right; apply N.leb_gt; lia);
    apply N.eqb_neq; lia.
Qed.

Lemma sameLetter_toLower (a b : ascii) :
  sameLetter a b → toLower a = toLower b.
Proof.
  intros [->|[H|H]]; [done|by apply lowerOf_toLower|].
  symmetry. by apply lowerOf_toLower.
Qed.

Lemma sameLetter_isSpace (a b : ascii) :
  sameLetter a b → isSpace a = isSpace b.
Proof.
  intros [->|[H|H]]; [done| |];
    apply lowerOf_isSpace in H as [-> ->]; done.
Qed.

Lemma caseVariant_lowerASCII (s t : string) :
  caseVariant s t → lowerASCII s = lowerASCII t.
Proof.
  induction 1 as [|a b s t Hab _ IH]; simpl; [done|].
  by rewrite IH, (sameLetter_toLower a b).
Qed.

Lemma caseVariant_trimLeft (s t : string) :
  caseVariant s t → caseVariant (trimLeft s) (trimLeft t).
Proof.
  induction 1 as [|a b s t Hab Hst IH]; simpl; [constructor|].
  rewrite <- (sameLetter_isSpace a b Hab).
  destruct (isSpace a); [done|by constructor].
Qed.

Lemma caseVariant_trimRight (s t : string) :
  caseVariant s t → caseVariant (trimRight s) (trimRight t).
Proof.
  induction 1 as [|a b s t Hab Hst IH]; simpl; [constructor|].
  rewrite <- (sameLetter_isSpace a b Hab).
  inversion IH as [Hs Ht|a' b' s' t' Hab' Hst' Hs Ht].
  - destruct (isSpace a); constructor; [done|constructor].
  - constructor; [done|]. by constructor.
Qed.

Lemma trimLeft_allSpace (l x : string) :
  allSpace l = true → trimLeft (l +:+ x) = trimLeft x.
Proof.
  induction l as [|c l IH]; simpl; [done|].
  intros [Hc Hl]%andb_true_iff. rewrite Hc. by apply IH.
Qed.

Lemma trimRight_only_space (r : string) :
  allSpace r = true → trimRight r = EmptyString.
Proof.
  induction r as [|c r IH]; simpl; [done|].
  intros [Hc Hr]%andb_true_iff. by rewrite (IH Hr), Hc.
Qed.

Lemma trimRight_allSpace (x r : string) :
  allSpace r = true → trimRight (x +:+ r) = trimRight x.
Proof.
  intros Hr. induction x as [|c x IH]; simpl.
  - by apply trimRight_only_space.
  - by rewrite IH.
Qed.

Lemma trimLeft_only_space (r : string) :
  allSpace r = true → trimLeft r = EmptyString.
Proof.
  induction r as [|c r IH]; simpl; [done|].
  intros [Hc Hr]%andb_true_iff. rewrite Hc. by apply IH.
Qed.

Lemma trimASCII_padded (s core : string) :
  padded s core → trimASCII s = trimASCII core.
Proof.
  intros (l & r & Hl & Hr & ->). unfold trimASCII.
  rewrite (trimLeft_allSpace l _ Hl).
  induction core as [|c core IH].
  - change (EmptyString +:+ r) with r.
    by rewrite (trimLeft_only_space r Hr).
  - change (String c core +:+ r) with (String c (core +:+ r)).
    cbn [trimLeft]. destruct (isSpace c); [done|].
    change (String c (core +:+ r)) with (String c core +:+ r).
    by apply trimRight_allSpace.
Qed.

Lemma lowerASCII_app (a b : string) :
  lowerASCII (a +:+ b) = lowerASCII a +:+ lowerASCII b.
Proof. induction a as [|c a IH]; simpl; [done|]. by rewrite IH. Qed.

Lemma sameUpToCaseAndPadding_key (s t : string) :
  sameUpToCaseAndPadding s t →
  lowerASCII (trimASCII s) = lowerASCII (trimASCII t).
Proof.
  intros (c & c' & Hs & Ht & Hc).
  rewrite (trimASCII_padded s c Hs), (trimASCII_padded t c' Ht).
  apply caseVariant_lowerASCII. unfold trimASCII.
  by apply caseVariant_trimRight, caseVariant_trimLeft.
Qed.

Lemma isASCII_lowerASCII (s : string) :
  isASCII s = true → isASCII (lowerASCII s) = true.
Proof.
  induction s as [|c s IH]; [done|]. simpl.
  intros [Hc Hs]%andb_true_iff. rewrite (IH Hs), andb_true_r.
  destruct c as [[] [] [] [] [] [] [] []]; try discriminate Hc; reflexivity.
Qed.

Lemma routeKey_insensitive (m p m' p' : string) :
  isASCII m = true → isASCII p = true →
  isASCII m' = true → isASCII p' = true →
  sameUpToCaseAndPadding m m' → sameUpToCaseAndPadding p p' →
  routeKey m p = routeKey m' p'.
Proof.
  intros Am Ap Am' Ap' Hm Hp.
  rewrite (routeKey_ascii m p Am Ap), (routeKey_ascii m' p' Am' Ap').
  rewrite !lowerASCII_app.
  by rewrite (sameUpToCaseAndPadding_key m m' Hm),
             (sameUpToCaseAndPadding_key p p' Hp).
Qed.

Lemma lowerOf_ToLower (a b : ascii) :
  lowerOf a b →
  unicode.ToLower (utf8.code a) = unicode.ToLower (utf8.code b).
Proof.
  intros [Hu Hb]. unfold isUpper in Hu.
  apply andb_true_iff in Hu as [H1 H2]. apply N.leb_le in H1, H2.
  unfold unicode.ToLower, utf8.code. rewrite Hb.
  replace (Z.of_N (N_of_ascii a) <=? 127) with true
    by (symmetry; apply Z.leb_le; lia).
  replace (Z.of_N (N_of_ascii a + 32) <=? 127) with true
    by (symmetry; apply Z.leb_le; lia).
  replace ((65 <=? Z.of_N (N_of_ascii a)) && (Z.of_N (N_of_ascii a) <=? 90))
    with true
    by (symmetry; apply andb_true_iff; split; apply Z.leb_le; lia).
  replace ((65 <=? Z.of_N (N_of_ascii a + 32))
           && (Z.of_N (N_of_ascii a + 32) <=? 90)) with false
    by (symmetry; apply andb_false_iff; right; apply Z.leb_gt; lia).
  lia.
Qed.

Lemma sameLetter_sameRune (a b : ascii) :
  sameLetter a b →
  sameRune (utf8.code a, String a EmptyString)
           (utf8.code b, String b EmptyString).
Proof.
  unfold sameRune. simpl.
  intros [->|[H|H]]; [done| |symmetry]; by apply lowerOf_ToLower.
Qed.

Lemma caseVariant_sameLetters (s t : string) :
  isASCII s = true → isASCII t = true →
  caseVariant s t → sameLetters s t.
Proof.
  unfold sameLetters. intros Hs Ht Hc.
  induction Hc as [|a b s t Hab Hst IH]; [constructor|].
  simpl in Hs, Ht. apply andb_true_iff in Hs as [Ha Hs].
  apply andb_true_iff in Ht as [Hb Ht].
  rewrite (runes_ascii_cons a s Ha), (runes_ascii_cons b t Hb).
  constructor; [by apply sameLetter_sameRune|by apply IH].
Qed.

Lemma allSpace_blank (l : string) : allSpace l = true → blank l = true.
Proof.
  unfold blank, allRunes. induction l as [|c l IH]; [done|]. simpl.
  intros [Hc Hl]%andb_true_iff.
  assert (Ha : (N_of_ascii c <? 128)%N = true).
  { unfold isSpace in Hc. apply N.ltb_lt.
    apply orb_true_iff in Hc as [[_ H]%andb_true_iff|H];
      [apply N.leb_le in H|apply N.eqb_eq in H]; lia. }
  rewrite (runes_ascii_cons c l Ha). cbn [forallb fst].
  destruct (ascii_code c Ha) as (-> & _). by rewrite Hc, IH.
Qed.

Lemma padded_spaced (s core : string) : padded s core → spaced s core.
Proof.
  intros (l & r & Hl & Hr & ->). exists l, r.
  by rewrite (allSpace_blank l Hl), (allSpace_blank r Hr).
Qed.

(** On ASCII text the two notions of strings that differ only in letter
    case and in white space at their ends agree: the one for any text
    holds wherever the one for ASCII does. *)
Lemma sameUpToCaseAndPadding_Space (s t : string) :
  isASCII s = true → isASCII t = true →
  sameUpToCaseAndPadding s t → sameUpToCaseAndSpace s t.
Proof.
  intros As At (c & c' & Hs & Ht & Hc). exists c, c'.
  split; [by apply padded_spaced|]. split; [by apply padded_spaced|].
  destruct Hs as (l & r & _ & _ & ->). destruct Ht as (l' & r' & _ & _ & ->).
  rewrite !isASCII_app in As, At.
  apply andb_true_iff in As as [_ [As _]%andb_true_iff].
  apply andb_true_iff in At as [_ [At _]%andb_true_iff].
  by apply caseVariant_sameLetters.
Qed.




(* ===================================================================== *)
(** ** The registry *)
(* ===================================================================== *)

Lemma selected_Add_match (r : router) (m p : string) (hs : list HandlerFunc)
  (req : Request) :
  routeKey (HTTPMethod req) (Resource req) = routeKey m p →
  selected (Add r m p hs) req
  = match hs with [] => [router_notFoundHandler r] | _ => hs end.
Proof.
  intros Hk. unfold selected, Add. simpl. rewrite Hk, lookup_insert_eq.
  simpl. by destruct hs.
Qed.

(** C8. Registering a second route under the same key replaces the first
    one entirely: the router is the one in which the first registration
    never happened, so a dispatch that matches the key finds the new route
    and runs the new handlers only. *)
Theorem C8_reregistration_overwrites (r : router) (m1 p1 m2 p2 : string)
  (h1 h2 : list HandlerFunc) :
  routeKey m1 p1 = routeKey m2 p2 →
  Add (Add r m1 p1 h1) m2 p2 h2 = Add r m2 p2 h2
  ∧ (∀ req : Request,
       routeKey (HTTPMethod req) (Resource req) = routeKey m2 p2 →
       routes (Add (Add r m1 p1 h1) m2 p2 h2)
         !! routeKey (HTTPMethod req) (Resource req)
       = Some (mkRoute m2 p2 h2)
       ∧ (h2 ≠ [] → selected (Add (Add r m1 p1 h1) m2 p2 h2) req = h2))
  ∧ (∀ (ev : event) (l : list logRecord),
       Serve (Add (Add r m1 p1 h1) m2 p2 h2) ev l
       = Serve (Add r m2 p2 h2) ev l).
Proof.
  intros Hk.
  assert (Add (Add r m1 p1 h1) m2 p2 h2 = Add r m2 p2 h2) as Heq.
  { unfold Add. simpl. rewrite Hk. by rewrite insert_insert_eq. }
  split; [exact Heq|]. split.
  - intros req Hreq. rewrite Heq. split.
    + unfold Add. simpl. rewrite Hreq. apply lookup_insert_eq.
    + intros Hne. rewrite (selected_Add_match _ _ _ _ _ Hreq).
      by destruct h2.
  - intros ev l. by rewrite Heq.
Qed.

Lemma C8_reregistration_overwrites_witness :
  selected (Add (Add NewRouter "GET" "/items" [CallString 200 "old" Return])
                "get" " /items " [CallString 200 "new" Return])
           (requestFor "Get" "/items")
  = [CallString 200 "new" Return].
Proof.
  apply (C8_reregistration_overwrites NewRouter "GET" "/items" "get" " /items "
           [CallString 200 "old" Return] [CallString 200 "new" Return]
           eq_refl);
    [reflexivity|discriminate].
Defined.

(** C9. A route registered with no handler is served as if the method and
    path had no route: every event gets the outcome it gets from the
    router without that route, a request that matches the key runs the
    not-found handler alone, and with the default not-found handler the
    response has status 404, not 500. *)
Theorem C9_empty_route_is_not_found (r : router) (m p : string) :
  (∀ (ev : event) (l : list logRecord),
     Serve (Add r m p []) ev l = Serve (unregister r m p) ev l)
  ∧ (∀ req : Request,
       routeKey (HTTPMethod req) (Resource req) = routeKey m p →
       selected (Add r m p []) req = [router_notFoundHandler r]
       ∧ selected (unregister r m p) req = [router_notFoundHandler r]
       ∧ (router_notFoundHandler r = notFoundHandler →
          ∀ l, StatusCode (fst (fst (Serve (Add r m p []) (Parsed req) l)))
               = 404)).
Proof.
  assert (∀ req, selected (Add r m p []) req = selected (unregister r m p) req)
    as Hsel.
  { intros req. unfold selected, Add, unregister. simpl.
    rewrite lookup_insert, lookup_delete.
    by destruct (decide (routeKey m p
                         = routeKey (HTTPMethod req) (Resource req))). }
  split.
  - intros [err|req] l; simpl; [done|]. by rewrite Hsel.
  - intros req Hreq.
    assert (selected (Add r m p []) req = [router_notFoundHandler r]) as Hnf
      by exact (selected_Add_match r m p [] req Hreq).
    split; [exact Hnf|]. split; [by rewrite <- Hsel|].
    intros Hd l. unfold Serve. rewrite Hnf, Hd. reflexivity.
Qed.

Lemma C9_empty_route_is_not_found_witness :
  selected (Add NewRouter "GET" "/items" []) (requestFor "get" "/items")
    = [notFoundHandler]
  ∧ StatusCode (fst (fst (Serve (Add NewRouter "GET" "/items" [])
                                (Parsed (requestFor "get" "/items")) [])))
    = 404.
Proof.
  destruct (proj2 (C9_empty_route_is_not_found NewRouter "GET" "/items")
              (requestFor "get" "/items") eq_refl) as [Hs [_ Hc]].
  split; [exact Hs|]. apply Hc. reflexivity.
Defined.

(* ===================================================================== *)
(** ** More on the executor *)
(* ===================================================================== *)

Lemma Handle_log (h : HandlerFunc) (w : World) :
  ∃ l', log (snd (Handle h w)) = log w ++ l'.
Proof.
  unfold Handle.
  apply (run_preserves (λ w1, ∃ l', log w1 = log w ++ l')).
  - done.
  - intros w0 rec [l' Hl]. exists (l' ++ [rec]). simpl.
    by rewrite Hl, app_assoc.
  - intros w0 st v [l' Hl]. rewrite stored_status.
    destruct (json.Marshal v); by exists l'.
  - exists []. simpl. by rewrite app_nil_r.
Qed.

Lemma exec_log (hs : list HandlerFunc) (resp : response) (w : World) :
  ∃ l', log (snd (execHandlerFuncs resp w hs)) = log w ++ l'.
Proof.
  revert resp w. induction hs as [|hf rest IH]; intros resp w; simpl.
  - exists []. by rewrite app_nil_r.
  - destruct (Handle_log hf w) as [l1 H1].
    destruct (Handle hf w) as [[[he|msg]|] w1]; simpl in *.
    + by exists l1.
    + eexists (l1 ++ [_]). by rewrite H1, app_assoc.
    + destruct (IH (match Context_response (ctx w1) with
                    | Some r => r | None => resp end) w1) as [l2 H2].
      exists (l1 ++ l2). by rewrite H2, H1, app_assoc.
Qed.



(** X1. Running a chain is running its first part and then the rest: when
    the handlers of the first part all return no error, the executor on
    the whole chain ends as the executor on the rest does, started from
    the world and the candidate response the first part leaves. *)
Theorem exec_splits_at_success (hs1 hs2 : list HandlerFunc)
  (resp : response) (w w1 : World) :
  runAll w hs1 = Some w1 →
  snd (execHandlerFuncs resp w hs1) = w1
  ∧ execHandlerFuncs resp w (hs1 ++ hs2)
    = execHandlerFuncs (fst (execHandlerFuncs resp w hs1)) w1 hs2.
Proof.
  revert resp w. induction hs1 as [|h rest IH]; intros resp w; simpl.
  - by intros [= <-].
  - destruct (Handle h w) as [[e|] w0]; [done|]. intros H. by apply IH.
Qed.

Lemma exec_splits_at_success_witness :
  execHandlerFuncs defaultResponse (freshWorld zeroRequest [])
    ([CallString 200 "one" Return] ++ [CallContinue Return])
  = execHandlerFuncs
      (mkresponse 200 EmptyHeaders (json.encodeString "one"))
      (snd (execHandlerFuncs defaultResponse (freshWorld zeroRequest [])
              [CallString 200 "one" Return]))
      [CallContinue Return].
Proof.
  exact (proj2 (exec_splits_at_success [CallString 200 "one" Return]
                  [CallContinue Return] defaultResponse
                  (freshWorld zeroRequest []) _ eq_refl)).
Defined.

(** X2. What follows a failing handler has no effect at all: when some
    handler of the first part of a chain returns an error, the executor
    gives for the whole chain the response and the world it gives for the
    first part alone. *)
Theorem exec_ignores_rest_after_error (hs1 hs2 : list HandlerFunc)
  (resp : response) (w : World) :
  runAll w hs1 = None →
  execHandlerFuncs resp w (hs1 ++ hs2) = execHandlerFuncs resp w hs1.
Proof.
  revert resp w. induction hs1 as [|h rest IH]; intros resp w; simpl.
  - done.
  - destruct (Handle h w) as [[[he|msg]|] w0]; try done.
    intros H. by apply IH.
Qed.

Lemma exec_ignores_rest_after_error_witness :
  execHandlerFuncs defaultResponse (freshWorld zeroRequest [])
    ([CallContinue Return; Return (Some (OtherErr "boom"))]
       ++ [CallString 200 "late" Return])
  = execHandlerFuncs defaultResponse (freshWorld zeroRequest [])
      [CallContinue Return; Return (Some (OtherErr "boom"))].
Proof.
  apply (exec_ignores_rest_after_error
           [CallContinue Return; Return (Some (OtherErr "boom"))]
           [CallString 200 "late" Return]).
  reflexivity.
Defined.

(** X3. The process log only grows: whatever the router, the handlers and
    the event, the log after an invocation is the log before it with
    records added at the end. *)
Theorem log_is_append_only (r : router) (hs : list HandlerFunc) (ev : event)
  (l : list logRecord) :
  (∃ l', snd (fst (Serve r ev l)) = l ++ l')
  ∧ (∃ l', snd (fst (HandleEvent hs ev l)) = l ++ l').
Proof.
  destruct ev as [err|req]; simpl.
  - split; by eexists.
  - split; apply (exec_log _ defaultResponse (freshWorld req l)).
Qed.


(** X5. A value that cannot be encoded changes nothing: [JSON] returns the
    wrapped encoder error and leaves the context, with any response
    stored before, as it was; a handler that returns this error ends the
    chain with the internal-error response. *)
Theorem failed_JSON_changes_nothing (st : Z) (v : gvalue) (e : error)
  (k : option error → HandlerFunc) (rest : list HandlerFunc)
  (resp : response) (w : World) :
  json.Marshal v = Err e →
  JSON (ctx w) st v
    = (ctx w, Some (Errorf "lambdaproxy: unable to convert body to json: " e))
  ∧ run (CallJSON st v k) w
    = run (k (Some (Errorf "lambdaproxy: unable to convert body to json: " e))) w
  ∧ fst (execHandlerFuncs resp w (CallJSON st v Return :: rest))
    = internalError
  ∧ ctx (snd (execHandlerFuncs resp w (CallJSON st v Return :: rest))) = ctx w.
Proof.
  intros Hm.
  assert (JSON (ctx w) st v
          = (ctx w, Some (Errorf "lambdaproxy: unable to convert body to json: " e)))
    as HJ by (unfold JSON; by rewrite status_unfold, Hm).
  assert (∀ w0 k0,
            run (CallJSON st v k0) w0
            = run (k0 (Some (Errorf "lambdaproxy: unable to convert body to json: " e))) w0)
    as Hrun.
  { intros w0 k0. simpl. unfold JSON. rewrite stored_status.
    rewrite status_unfold, Hm. reflexivity. }
  split; [exact HJ|]. split; [by apply Hrun|].
  cbn [execHandlerFuncs]. unfold Handle. rewrite (Hrun (called w) Return).
  simpl. by split.
Qed.

Lemma failed_JSON_changes_nothing_witness :
  fst (execHandlerFuncs defaultResponse (freshWorld zeroRequest [])
         [CallJSON 200 GFunc Return; CallString 200 "late" Return])
  = internalError.
Proof.
  exact (proj1 (proj2 (proj2 (failed_JSON_changes_nothing 200 GFunc _ Return
           [CallString 200 "late" Return] defaultResponse
           (freshWorld zeroRequest []) eq_refl)))).
Defined.

(** X6. A response-setting method overwrites: after a second successful
    call the context carries the second response only, whatever the first
    call stored, and the request is the one the context had. *)
Theorem status_overwrites (c : Context) (s1 s2 : Z) (v1 v2 : gvalue)
  (b : string) :
  json.Marshal v2 = Ok b →
  JSON (fst (JSON c s1 v1)) s2 v2
  = (mkContext (Context_Request c) (Some (mkresponse s2 EmptyHeaders b)),
     None).
Proof.
  intros H2. unfold JSON. rewrite (status_unfold _ s2), H2.
  rewrite status_unfold. by destruct (json.Marshal v1).
Qed.

Lemma status_overwrites_witness :
  NoContent (fst (String_ (mkContext zeroRequest None) 200 "first")) 404
  = (mkContext zeroRequest (Some (mkresponse 404 EmptyHeaders twoQuotes)),
     None).
Proof.
  exact (status_overwrites (mkContext zeroRequest None) 200 404
           (GString "first") (GString "") twoQuotes eq_refl).
Defined.

(* ===================================================================== *)
(** ** More on route keys *)
(* ===================================================================== *)

Lemma toLower_colon (c : ascii) :
  (N_of_ascii (toLower c) =? 58)%N = (N_of_ascii c =? 58)%N.
Proof.
  unfold toLower, isUpper.
  destruct ((65 <=? N_of_ascii c)%N && (N_of_ascii c <=? 90)%N) eqn:Hu;
    [|done].
  apply andb_true_iff in Hu as [H1 H2]. apply N.leb_le in H1, H2.
  rewrite N_ascii_embedding by lia.
  transitivity false; [|symmetry]; apply N.eqb_neq; lia.
Qed.

Lemma noColon_lowerASCII (s : string) : noColon (lowerASCII s) = noColon s.
Proof.
  induction s as [|c s IH]; simpl; [done|]. by rewrite toLower_colon, IH.
Qed.

Lemma colon_split_unique (a a' b b' : string) :
  noColon a = true → noColon a' = true →
  a +:+ ":" +:+ b = a' +:+ ":" +:+ b' → a = a' ∧ b = b'.
Proof.
  revert a'. induction a as [|c a IH]; intros [|c' a'];
    rewrite ?append_cons, ?append_nil_l; simpl.
  - intros _ _ H. injection H as H. by rewrite H.
  - intros _ [Hc _]%andb_true_iff H. injection H as H _.
    by rewrite <- H in Hc.
  - intros [Hc _]%andb_true_iff _ H. injection H as H _.
    by rewrite H in Hc.
  - intros [_ Ha]%andb_true_iff [_ Ha']%andb_true_iff H.
    injection H as Hc H.
    destruct (IH a' Ha Ha' H) as [Ha1 Hb1]. by rewrite Hc, Ha1, Hb1.
Qed.

Lemma trimLeft_decompose (s : string) :
  ∃ l, allSpace l = true ∧ s = l +:+ trimLeft s.
Proof.
  induction s as [|c s [l [Hl Hs]]]; simpl.
  - by exists EmptyString.
  - destruct (isSpace c) eqn:Hc.
    + exists (String c l). simpl. rewrite Hc, Hl. split; [done|].
      rewrite append_cons. by f_equal.
    + by exists EmptyString.
Qed.

Lemma trimRight_decompose (s : string) :
  ∃ r, allSpace r = true ∧ s = trimRight s +:+ r.
Proof.
  induction s as [|c s [r [Hr Hs]]]; simpl.
  - by exists EmptyString.
  - destruct (trimRight s) as [|c' t] eqn:Ht.
    + rewrite append_nil_l in Hs. destruct (isSpace c) eqn:Hc.
      * exists (String c r). simpl. rewrite Hc, Hr. split; [done|].
        rewrite append_nil_l. by f_equal.
      * exists r. split; [done|]. rewrite append_cons, append_nil_l.
        by f_equal.
    + exists r. split; [done|]. rewrite append_cons. by f_equal.
Qed.

Lemma padded_trimASCII (s : string) : padded s (trimASCII s).
Proof.
  destruct (trimLeft_decompose s) as [l [Hl Hs]].
  destruct (trimRight_decompose (trimLeft s)) as [r [Hr Ht]].
  exists l, r. split; [done|]. split; [done|].
  unfold trimASCII. by rewrite <- Ht.
Qed.

Lemma padded_refl (s : string) : padded s s.
Proof.
  exists EmptyString, EmptyString. split; [done|]. split; [done|].
  by rewrite append_nil_l, append_nil_r.
Qed.

Lemma caseVariant_refl (s : string) : caseVariant s s.
Proof. induction s; constructor; [by left|done]. Qed.

Lemma caseVariant_lowerASCII_self (s : string) : caseVariant (lowerASCII s) s.
Proof.
  induction s as [|c s IH]; simpl; constructor; [|done].
  unfold toLower. destruct (isUpper c) eqn:Hu; [|by left].
  right. right. split; [done|].
  unfold isUpper in Hu. apply andb_true_iff in Hu as [H1 H2].
  apply N.leb_le in H1, H2. apply N_ascii_embedding. lia.
Qed.

Lemma sameUpToCaseAndPadding_refl (s : string) : sameUpToCaseAndPadding s s.
Proof.
  exists s, s. split; [apply padded_refl|].
  split; [apply padded_refl|apply caseVariant_refl].
Qed.

Lemma sameUpToCaseAndPadding_normal (s : string) :
  sameUpToCaseAndPadding (lowerASCII (trimASCII s)) s.
Proof.
  exists (lowerASCII (trimASCII s)), (trimASCII s).
  split; [apply padded_refl|].
  split; [apply padded_trimASCII|apply caseVariant_lowerASCII_self].
Qed.

(** X7. Different routes do not meet under one key: for ASCII methods
    without a colon, two registrations (or a registration and a request)
    have the same key only when their trimmed, lower-cased methods are
    equal and their trimmed, lower-cased paths are equal. *)
Theorem routeKey_separates (m p m' p' : string) :
  isASCII m = true → isASCII p = true →
  isASCII m' = true → isASCII p' = true →
  noColon (TrimSpace m) = true → noColon (TrimSpace m') = true →
  routeKey m p = routeKey m' p' →
  ToLower (TrimSpace m) = ToLower (TrimSpace m')
  ∧ ToLower (TrimSpace p) = ToLower (TrimSpace p').
Proof.
  intros Am Ap Am' Ap'.
  rewrite (routeKey_ascii m p Am Ap), (routeKey_ascii m' p' Am' Ap').
  rewrite (TrimSpace_ascii m Am), (TrimSpace_ascii p Ap),
          (TrimSpace_ascii m' Am'), (TrimSpace_ascii p' Ap').
  rewrite !ToLower_ascii by (by apply isASCII_trimASCII).
  intros Hm Hm'. rewrite !lowerASCII_app. simpl.
  apply colon_split_unique; by rewrite noColon_lowerASCII.
Qed.

Lemma routeKey_separates_witness :
  ToLower (TrimSpace " GET ") = ToLower (TrimSpace "get")
  ∧ ToLower (TrimSpace "/Items") = ToLower (TrimSpace "/items ").
Proof.
  apply (routeKey_separates " GET " "/Items" "get" "/items "); reflexivity.
Defined.

(** X8. The key is a normal form: the trimmed, lower-cased method and
    path give the key the method and path themselves give, so a route can
    be registered or requested in either form. *)
Theorem routeKey_of_normal_form (m p : string) :
  isASCII m = true → isASCII p = true →
  routeKey (ToLower (TrimSpace m)) (ToLower (TrimSpace p)) = routeKey m p.
Proof.
  intros Am Ap.
  rewrite (TrimSpace_ascii m Am), (TrimSpace_ascii p Ap).
  rewrite !ToLower_ascii by (by apply isASCII_trimASCII).
  apply routeKey_insensitive;
    try (by apply isASCII_lowerASCII, isASCII_trimASCII); try done;
    apply sameUpToCaseAndPadding_normal.
Qed.

Lemma routeKey_of_normal_form_witness :
  routeKey (ToLower (TrimSpace " GET ")) (ToLower (TrimSpace " /Items "))
  = routeKey " GET " " /Items ".
Proof.
  apply (routeKey_of_normal_form " GET " " /Items "); reflexivity.
Defined.

(* ===================================================================== *)
(** ** More on the registry and the dispatch *)
(* ===================================================================== *)

Ltac verb_keys_differ :=
  rewrite !routeKey_parts;
  repeat match goal with
         | |- context [ToLower (TrimSpace (String ?c ?s))] =>
           let v := eval vm_compute in (ToLower (TrimSpace (String c s))) in
           change (ToLower (TrimSpace (String c s))) with v
         end;
  rewrite !append_cons, !append_nil_l; discriminate.

(** X9. The five method helpers register under five different keys: on
    one path they keep five routes side by side, each found under its own
    method and stored with the lower-case method name the helper gives. *)
Theorem method_helpers_coexist (r : router) (p : string)
  (h1 h2 h3 h4 h5 : list HandlerFunc) :
  let r' := HEAD (DELETE (POST (PUT (GET r p h1) p h2) p h3) p h4) p h5 in
  routes r' !! routeKey "get" p = Some (mkRoute "get" p h1)
  ∧ routes r' !! routeKey "put" p = Some (mkRoute "put" p h2)
  ∧ routes r' !! routeKey "post" p = Some (mkRoute "post" p h3)
  ∧ routes r' !! routeKey "delete" p = Some (mkRoute "delete" p h4)
  ∧ routes r' !! routeKey "head" p = Some (mkRoute "head" p h5).
Proof.
  unfold HEAD, DELETE, POST, PUT, GET, Add. simpl.
  repeat split;
    repeat (first [ apply lookup_insert_eq
                  | rewrite lookup_insert_ne; [|verb_keys_differ] ]).
Qed.

(** X10. Registering a route leaves every other key alone: a request
    whose key is not the new route's key selects the handlers it selected
    before and is served as before. *)
Theorem Add_leaves_other_keys (r : router) (m p : string)
  (hs : list HandlerFunc) (req : Request) :
  routeKey (HTTPMethod req) (Resource req) ≠ routeKey m p →
  selected (Add r m p hs) req = selected r req
  ∧ ∀ l, Serve (Add r m p hs) (Parsed req) l = Serve r (Parsed req) l.
Proof.
  intros Hk.
  assert (selected (Add r m p hs) req = selected r req) as Hs.
  { unfold selected, Add. simpl. by rewrite lookup_insert_ne. }
  split; [exact Hs|]. intros l. unfold Serve. by rewrite Hs.
Qed.

Lemma Add_leaves_other_keys_witness :
  selected (Add (Add NewRouter "get" "/a" [CallString 200 "a" Return])
                "get" "/b" [CallString 200 "b" Return])
           (requestFor "GET" "/a")
  = selected (Add NewRouter "get" "/a" [CallString 200 "a" Return])
             (requestFor "GET" "/a").
Proof.
  apply (Add_leaves_other_keys
           (Add NewRouter "get" "/a" [CallString 200 "a" Return])
           "get" "/b" [CallString 200 "b" Return] (requestFor "GET" "/a")).
  vm_compute. discriminate.
Defined.

(** X11. Registrations under different keys can be made in either order:
    the two orders give the same router. *)
Theorem Add_commutes (r : router) (m1 p1 m2 p2 : string)
  (h1 h2 : list HandlerFunc) :
  routeKey m1 p1 ≠ routeKey m2 p2 →
  Add (Add r m1 p1 h1) m2 p2 h2 = Add (Add r m2 p2 h2) m1 p1 h1.
Proof.
  intros Hk. unfold Add. simpl. f_equal. by apply insert_insert_ne.
Qed.

Lemma Add_commutes_witness :
  Add (Add NewRouter "get" "/a" []) "post" "/a" [Return None]
  = Add (Add NewRouter "post" "/a" [Return None]) "get" "/a" [].
Proof.
  apply (Add_commutes NewRouter "get" "/a" "post" "/a" [] [Return None]).
  vm_compute. discriminate.
Defined.

(** X12. The not-found handler is one slot, used only on a miss: setting
    it again replaces it; a request that finds a route with handlers is
    served as before, whatever not-found handler is set; a request that
    finds no route, or a route without handlers, runs the handler set
    last and nothing else. *)
Theorem SetNotFoundHandler_only_on_miss (r : router) (h1 h2 : HandlerFunc)
  (req : Request) :
  SetNotFoundHandler (SetNotFoundHandler r h1) h2 = SetNotFoundHandler r h2
  ∧ (∀ rt, routes r !! routeKey (HTTPMethod req) (Resource req) = Some rt →
           HandlerFuncs rt ≠ [] →
           selected (SetNotFoundHandler r h2) req = HandlerFuncs rt
           ∧ ∀ l, Serve (SetNotFoundHandler r h2) (Parsed req) l
                  = Serve r (Parsed req) l)
  ∧ ((routes r !! routeKey (HTTPMethod req) (Resource req) = None
      ∨ ∃ rt, routes r !! routeKey (HTTPMethod req) (Resource req) = Some rt
              ∧ HandlerFuncs rt = []) →
     selected (SetNotFoundHandler (SetNotFoundHandler r h1) h2) req = [h2]).
Proof.
  split; [done|]. split.
  - intros rt Hrt Hne.
    assert (selected (SetNotFoundHandler r h2) req = HandlerFuncs rt
            ∧ selected r req = HandlerFuncs rt) as [Hs Hs'].
    { unfold selected, SetNotFoundHandler. simpl. rewrite Hrt.
      by destruct (HandlerFuncs rt). }
    split; [exact Hs|]. intros l. unfold Serve. by rewrite Hs, Hs'.
  - intros [Hn|[rt [Hrt He]]]; unfold selected, SetNotFoundHandler; simpl.
    + by rewrite Hn.
    + by rewrite Hrt, He.
Qed.

Lemma SetNotFoundHandler_only_on_miss_witness :
  selected (SetNotFoundHandler
              (GET NewRouter "/items" [CallString 200 "items" Return])
              (CallNoContent 410 Return))
           (requestFor "GET" "/items")
  = [CallString 200 "items" Return]
  ∧ selected (SetNotFoundHandler
                (SetNotFoundHandler
                   (GET NewRouter "/items" [CallString 200 "items" Return])
                   (CallNoContent 400 Return))
                (CallNoContent 410 Return))
             (requestFor "GET" "/other")
    = [CallNoContent 410 Return].
Proof.
  destruct (SetNotFoundHandler_only_on_miss
              (GET NewRouter "/items" [CallString 200 "items" Return])
              (CallNoContent 400 Return) (CallNoContent 410 Return)
              (requestFor "GET" "/items")) as [_ [Hhit _]].
  destruct (SetNotFoundHandler_only_on_miss
              (GET NewRouter "/items" [CallString 200 "items" Return])
              (CallNoContent 400 Return) (CallNoContent 410 Return)
              (requestFor "GET" "/other")) as [_ [_ Hmiss]].
  split.
  - apply (Hhit (mkRoute "get" "/items" [CallString 200 "items" Return]));
      [reflexivity|discriminate].
  - apply Hmiss. left. reflexivity.
Defined.

(** X13. A request that finds a route with handlers is served exactly as
    [Handle] with these handlers serves it, and a request that finds none
    as [Handle] with the not-found handler alone. *)
Theorem Serve_is_Handle_on_the_route (r : router) (req : Request)
  (l : list logRecord) :
  (∀ rt, routes r !! routeKey (HTTPMethod req) (Resource req) = Some rt →
         HandlerFuncs rt ≠ [] →
         Serve r (Parsed req) l = HandleEvent (HandlerFuncs rt) (Parsed req) l)
  ∧ (routes r !! routeKey (HTTPMethod req) (Resource req) = None →
     Serve r (Parsed req) l
     = HandleEvent [router_notFoundHandler r] (Parsed req) l).
Proof.
  split.
  - intros rt Hrt Hne. unfold Serve, HandleEvent, selected. rewrite Hrt.
    by destruct (HandlerFuncs rt).
  - intros Hn. unfold Serve, HandleEvent, selected. by rewrite Hn.
Qed.

Lemma Serve_is_Handle_on_the_route_witness :
  Serve (GET NewRouter "/items" [CallString 200 "items" Return])
        (Parsed (requestFor "GET" "/items")) []
  = HandleEvent [CallString 200 "items" Return]
                (Parsed (requestFor "GET" "/items")) [].
Proof.
  apply (proj1 (Serve_is_Handle_on_the_route
                  (GET NewRouter "/items" [CallString 200 "items" Return])
                  (requestFor "GET" "/items") [])
               (mkRoute "get" "/items" [CallString 200 "items" Return]));
    [reflexivity|discriminate].
Defined.

(** X14. A route registered through a method helper answers the method in
    any letter case and with white space around it: a request whose
    method differs from the helper's only so, and whose resource path
    differs from the registered path only so, runs the route's handlers. *)
Theorem GET_matches_any_case (r : router) (p : string)
  (hs : list HandlerFunc) (req : Request) :
  isASCII p = true →
  isASCII (HTTPMethod req) = true → isASCII (Resource req) = true →
  sameUpToCaseAndPadding "get" (HTTPMethod req) →
  sameUpToCaseAndPadding p (Resource req) →
  hs ≠ [] →
  selected (GET r p hs) req = hs.
Proof.
  intros Ap Am Ar Hm Hp Hne. unfold GET.
  rewrite (selected_Add_match r "get" p hs req).
  - by destruct hs.
  - symmetry. by apply routeKey_insensitive.
Qed.

Lemma GET_matches_any_case_witness :
  selected (GET NewRouter "/items" [CallString 200 "items" Return])
           (requestFor " Get" "/ITEMS ")
  = [CallString 200 "items" Return].
Proof.
  apply (GET_matches_any_case NewRouter "/items"
           [CallString 200 "items" Return] (requestFor " Get" "/ITEMS "));
    try reflexivity; try discriminate.
  - exists "get"%string, "Get"%string. split; [apply padded_refl|]. split.
    + exists " "%string, EmptyString. by repeat split.
    + constructor; [right; right; split; reflexivity|apply caseVariant_refl].
  - exists "/items"%string, "/ITEMS"%string.
    split; [apply padded_refl|]. split.
    + exists EmptyString, " "%string. by repeat split.
    + constructor; [by left|].
      repeat (constructor; [right; right; split; reflexivity|]).
      constructor.
Defined.

(* ===================================================================== *)
(** ** More on the context *)
(* ===================================================================== *)

Lemma dom_mergo_Map (dst src m : gmap string string) :
  mergo.Map dst src = Ok m → dom m = dom dst ∪ dom src.
Proof.
  intros Hm. apply set_eq. intros k.
  rewrite elem_of_union, !elem_of_dom, (mergo_Map_lookup _ _ _ k Hm).
  destruct (dst !! k), (src !! k); split;
    first [ by eauto | by intros [[]|[]] | by intros [] ].
Qed.

(** X15. Binding into a string map fails exactly when the body cannot be
    decoded, with the decoder's error under the package's prefix; when it
    succeeds no key is lost and none is invented: the keys of the result
    are the keys decoded from the body together with the keys of the
    query string, and with no query parameters the result is the decoded
    body. *)
Theorem Bind_errors_and_keys
  (Unmarshal : string → gmap string string → result (gmap string string))
  (c : Context) (m : gmap string string) :
  (∀ e, Unmarshal (Request_Body (Context_Request c)) m = Err e →
        Bind Unmarshal c m
        = Err (OtherErr ("lambdaproxy: unable to bind body to struct: "
                         +:+ Error e)))
  ∧ (∀ m1, Unmarshal (Request_Body (Context_Request c)) m = Ok m1 →
       ∃ m2, Bind Unmarshal c m = Ok m2
             ∧ dom m2 = dom m1 ∪ dom (QueryStringParameters (Context_Request c))
             ∧ (QueryStringParameters (Context_Request c) = ∅ → m2 = m1)).
Proof.
  split.
  - intros e He. unfold Bind. by rewrite He.
  - intros m1 Hu. unfold Bind. rewrite Hu.
    destruct (mergo.Map m1 (QueryStringParameters (Context_Request c)))
      as [m2|e] eqn:Hm; [|discriminate Hm].
    exists m2. split; [done|]. split; [by apply dom_mergo_Map|].
    intros Hq. rewrite Hq in Hm. unfold mergo.Map in Hm.
    injection Hm as <-. by rewrite (right_id ∅ _).
Qed.

Lemma Bind_errors_and_keys_witness :
  (∃ e, Bind jsondec.Unmarshal (mkContext zeroRequest None) ∅ = Err e)
  ∧ (∃ m2, Bind jsondec.Unmarshal (mkContext bindRequest None) ∅ = Ok m2
           ∧ dom m2 = {["a"%string; "b"%string; "c"%string]}).
Proof.
  destruct (Bind_errors_and_keys jsondec.Unmarshal
              (mkContext zeroRequest None) ∅) as [Herr _].
  destruct (Bind_errors_and_keys jsondec.Unmarshal
              (mkContext bindRequest None) ∅) as [_ Hok].
  split.
  - eexists. apply Herr. vm_compute. reflexivity.
  - edestruct Hok as [m2 [Hb [Hd _]]]; [vm_compute; reflexivity|].
    exists m2. split; [exact Hb|]. rewrite Hd.
    apply set_eq. intros k. vm_compute dom. set_solver.
Defined.

(** X16. The four accessors read the request's maps and nothing else: a
    key the map does not have gives the empty string, a key it has gives
    its value, and storing a response does not change what any accessor
    returns. *)
Theorem accessors_read_the_request (c : Context) (n : string) (st : Z)
  (v : gvalue) :
  QueryParam c n = default ""%string
                     (QueryStringParameters (Context_Request c) !! n)
  ∧ Param c n = default ""%string (PathParameters (Context_Request c) !! n)
  ∧ StageVar c n = default ""%string
                     (StageVariables (Context_Request c) !! n)
  ∧ Header c n = default ""%string (Request_Headers (Context_Request c) !! n)
  ∧ QueryParam (fst (JSON c st v)) n = QueryParam c n
  ∧ Param (fst (JSON c st v)) n = Param c n
  ∧ StageVar (fst (JSON c st v)) n = StageVar c n
  ∧ Header (fst (JSON c st v)) n = Header c n.
Proof.
  assert (Context_Request (fst (JSON c st v)) = Context_Request c) as Hr.
  { unfold JSON. rewrite status_unfold. by destruct (json.Marshal v). }
  unfold QueryParam, Param, StageVar, Header. rewrite Hr. by repeat split.
Qed.

(** X17. An error made by [NewHTTPError] and returned by a handler gives
    a response with the error's code and, as body, the message, or the
    status text of the code when the message is empty. *)
Theorem NewHTTPError_response (StatusText : Z → string) (code : Z)
  (msg : string) (resp : response) (w : World) (rest : list HandlerFunc) :
  fst (execHandlerFuncs resp w
         (Return (Some (HTTPErr (NewHTTPError StatusText code msg))) :: rest))
  = mkresponse code EmptyHeaders
      (if decide (msg = ""%string) then StatusText code else msg).
Proof.
  simpl. unfold NewHTTPError.
  destruct (decide (msg ≠ ""%string)) as [Hm|Hm];
    destruct (decide (msg = ""%string)); simpl; try done.
Qed.
